(** * FAVISA orchestrator (python/main.py, python/db_connection.py)

    A shallow embedding of the staging-to-canonical migration pipeline:
    the field normalizers, the CSV staging reader, the catalog resolver,
    the migration engine with its batch fallback, and the orchestrating
    [main].  Definitions keep the names of the Python source. *)

From Stdlib Require Import ZArith NArith String Ascii Floats.
From stdpp Require Import gmap list.

Set Warnings "-abstract-large-number".

(** ** Python strings

    A Python [str] is a sequence of Unicode code points.  The extract is
    opened with [encoding='latin-1'], so every character read from it is
    a code point below 256; [upper] may leave that range (for instance
    U+00FF becomes U+0178), which is why code points are kept as [N]. *)

Abbreviation pystr := (list N).

(** A string literal of the source. *)
Definition lit (s : string) : pystr :=
  map N_of_ascii (list_ascii_of_string s).

(** [str.isspace] on one code point (the Unicode white-space set). *)
Definition is_space (c : N) : bool :=
  bool_decide (c ∈ [9; 10; 11; 12; 13; 28; 29; 30; 31; 32; 133; 160;
                    5760; 8232; 8233; 8239; 8287; 12288]%N)
  || ((8192 <=? c) && (c <=? 8202))%N.

Fixpoint lstrip (s : pystr) : pystr :=
  match s with
  | c :: s' => if is_space c then lstrip s' else s
  | [] => []
  end.

Definition rstrip (s : pystr) : pystr := rev (lstrip (rev s)).

(** [s.strip()] *)
Definition strip (s : pystr) : pystr := rstrip (lstrip s).

(** Uppercase mapping of one code point.  Exact on code points below
    256, the only ones the latin-1 decoder produces: ASCII and accented
    small letters move down by 32, the micro sign and y-diaeresis leave
    Latin-1, sharp s expands to two letters.  Code points from 256 on
    are left as they are. *)
Definition upper_cp (c : N) : pystr :=
  (if (97 <=? c) && (c <=? 122) then [c - 32]
   else if c =? 181 then [924]
   else if c =? 223 then [83; 83]
   else if c =? 255 then [376]
   else if (224 <=? c) && (c <=? 254) && negb (c =? 247) then [c - 32]
   else [c])%N.

(** [s.upper()] *)
Definition upper (s : pystr) : pystr := concat (map upper_cp s).

(** Truthiness of a value that is either [None] or a [str]:
    [None] and the empty string are falsy. *)
Definition truthy (v : option pystr) : bool :=
  match v with
  | Some (_ :: _) => true
  | _ => false
  end.

(** [str(x) if x else ''] *)
Definition str_or_empty (v : option pystr) : pystr :=
  match v with
  | Some s => s
  | None => []
  end.

(** [v in (...)] on a tuple of string literals. *)
Definition in_tuple (v : pystr) (t : list pystr) : bool :=
  bool_decide (v ∈ t).

(** ** Field normalizers (main.py, the limpiar functions)

    The argument is annotated [str]; the guard [if not valor] also
    covers [None], so the argument is an [option pystr]. *)

Definition limpiar_estado (valor : option pystr) : pystr :=
  if negb (truthy valor) then lit "ND"
  else
    let v := upper (strip (str_or_empty valor)) in
    if bool_decide (v = lit "2ACTIVO") then lit "ACTIVO"
    else if in_tuple v [lit "ACTIVO"; lit "10"; lit "11"; lit "3";
                        lit "2"; lit "1"; lit "12"; lit "INACTIVO"]
    then v
    else lit "ND".

Definition limpiar_condicion (valor : option pystr) : pystr :=
  if negb (truthy valor) then lit "ND"
  else
    let v := upper (strip (str_or_empty valor)) in
    if bool_decide (v = lit "2HABIDO") then lit "HABIDO"
    else if in_tuple v [lit "HABIDO"; lit "1"; lit "2"; lit "3"; lit "4";
                        lit "5"; lit "6"; lit "7"; lit "8"; lit "9";
                        lit "10"; lit "11"; lit "12"]
    then v
    else lit "ND".

Definition limpiar_tipo_empresa (valor : option pystr) : pystr :=
  if negb (truthy valor) then lit "-"
  else
    let v := upper (strip (str_or_empty valor)) in
    if in_tuple v [lit "A"; lit "B"; lit "C"; lit "D"; lit "E";
                   lit "CE"; lit "-"]
    then v
    else
      match v with
      | c :: _ =>
          if in_tuple [c] [lit "A"; lit "B"; lit "C"; lit "D"; lit "E"]
          then [c]
          else lit "-"
      | [] => lit "-"
      end.

Definition limpiar_sexo (valor : option pystr) : pystr :=
  if negb (truthy valor) then lit "ND"
  else
    let v := upper (strip (str_or_empty valor)) in
    if in_tuple v [lit "HOMBRE"; lit "MUJER"] then v else lit "ND".

Definition limpiar_tamano (valor : option pystr) : pystr :=
  if negb (truthy valor) then lit "C"
  else
    let v := upper (strip (str_or_empty valor)) in
    if in_tuple v [lit "C"; lit "M"; lit "G"; lit "B"] then v else lit "C".

(** The closed code set of each normalizer: the values its body can
    pass through, together with its fallback code. *)
Definition codigos_estado : list pystr :=
  [lit "ACTIVO"; lit "INACTIVO"; lit "1"; lit "2"; lit "3"; lit "10";
   lit "11"; lit "12"; lit "ND"].

Definition codigos_condicion : list pystr :=
  [lit "HABIDO"; lit "1"; lit "2"; lit "3"; lit "4"; lit "5"; lit "6";
   lit "7"; lit "8"; lit "9"; lit "10"; lit "11"; lit "12"; lit "ND"].

Definition codigos_tipo_empresa : list pystr :=
  [lit "A"; lit "B"; lit "C"; lit "D"; lit "E"; lit "CE"; lit "-"].

Definition codigos_sexo : list pystr := [lit "HOMBRE"; lit "MUJER"; lit "ND"].

Definition codigos_tamano : list pystr := [lit "C"; lit "M"; lit "G"; lit "B"].


(** ** [int()] on a string

    [int(s)] does not trim as [str.strip] does.  It reads a run of white
    space, one optional sign, decimal digits that single underscores may
    separate, and a run of white space, and raises [ValueError] on
    anything else and on more than 4300 digits, the interpreter's
    default limit.  Its white space is the Unicode white space without
    the four separators U+001C to U+001F; its digits are the decimal
    digits of Unicode (14.0, the tables of CPython 3.11), of which
    Latin-1 holds the ASCII ones only.  [None] stands for
    [ValueError]. *)

(** White space for [int()]. *)
Definition int_space (c : N) : bool :=
  is_space c && negb ((28 <=? c) && (c <=? 31))%N.

Fixpoint int_lstrip (s : pystr) : pystr :=
  match s with
  | c :: s' => if int_space c then int_lstrip s' else s
  | [] => []
  end.

Definition int_strip (s : pystr) : pystr :=
  rev (int_lstrip (rev (int_lstrip s))).

(** The code points of the digit zero of each decimal number system;
    the other nine digits follow it. *)
Definition decimal_zeros : list N :=
  [48; 1632; 1776; 1984; 2406; 2534; 2662; 2790; 2918; 3046; 3174; 3302;
   3430; 3558; 3664; 3792; 3872; 4160; 4240; 6112; 6160; 6470; 6608; 6784;
   6800; 6992; 7088; 7232; 7248; 42528; 43216; 43264; 43472; 43504; 43600;
   44016; 65296; 66720; 68912; 69734; 69872; 69942; 70096; 70384; 70736;
   70864; 71248; 71360; 71472; 71904; 72016; 72784; 73040; 73120; 92768;
   92864; 93008; 120782; 120792; 120802; 120812; 120822; 123200; 123632;
   125264; 130032]%N.

(** The decimal value of a code point, if it is a decimal digit. *)
Definition decimal (c : N) : option N :=
  (λ z, c - z)%N <$> List.find (λ z, (z <=? c) && (c <=? z + 9))%N decimal_zeros.

(** [sys.get_int_max_str_digits()], as the interpreter starts. *)
Definition int_max_str_digits : nat := 4300.

(** The value of a run of digits and single underscores that begins and
    ends with a digit. *)
Fixpoint digits_value (acc : Z) (prev_digit : bool) (s : pystr) : option Z :=
  match s with
  | [] => if prev_digit then Some acc else None
  | c :: s' =>
      match decimal c with
      | Some d => digits_value (10 * acc + Z.of_N d)%Z true s'
      | None =>
          if (c =? 95)%N && prev_digit then digits_value acc false s'
          else None
      end
  end.

Definition py_int (s : pystr) : option Z :=
  let t := int_strip s in
  let '(signo, cuerpo) :=
    match t with
    | 43%N :: r => (1%Z, r)
    | 45%N :: r => ((-1)%Z, r)
    | _ => (1%Z, t)
    end in
  match digits_value 0%Z false cuerpo with
  | Some v =>
      if bool_decide (length (filter (λ c, c ≠ 95%N) cuerpo)
                      ≤ int_max_str_digits)
      then Some (signo * v)%Z
      else None
  | None => None
  end.

(** ** Exceptions *)

Inductive exn := ValueError | KeyError | AttributeError | DBError.

Inductive res (A : Type) :=
  | Ok (a : A)
  | Raise (e : exn).
Arguments Ok {A} a.
Arguments Raise {A} e.

Definition res_bind {A B} (m : res A) (k : A → res B) : res B :=
  match m with
  | Ok a => k a
  | Raise e => Raise e
  end.

Notation "x ←? m ; k" := (res_bind m (λ x, k))
  (at level 20, m at level 100, k at level 200, only parsing).

(** ** Tables *)

(** A row of TMP_DataOZ_Staging. *)
Record fila_staging := FilaStaging {
  ddp_numruc : Z;
  ddp_ciiu : option pystr;
  ddp_tpoemp : option pystr;
  ddp_tamano : option pystr;
  ddp_ubigeo : option pystr;
  ddp_estado : option pystr;
  ddp_flag22 : option pystr;
  dds_sexo : option pystr;
  dds_edad : option Z;
  deuda : option float;
  condicion : Z
}.

(** A row of CONTRIBUYENTE, as the parameters of [sql_insert]. *)
Record contribuyente := Contribuyente {
  ruc : Z;
  id_ciiu : option pystr;
  id_tipo_empresa : pystr;
  id_tamano : pystr;
  id_ubicacion : option pystr;
  id_estado : pystr;
  id_condicion : pystr;
  sexo : pystr;
  edad : option Z;
  c_deuda : float;
  flag22 : option pystr
}.

(** The key columns of the catalogs that [poblar_catalogos] extends. *)
Record catalogos := Catalogos {
  ACTIVIDAD_ECONOMICA : gset pystr;
  UBICACION_GEOGRAFICA : gset pystr;
  TIPO_EMPRESA : gset pystr
}.

Record base := Base {
  TMP_DataOZ_Staging : list fila_staging;
  cats : catalogos;
  CONTRIBUYENTE : list contribuyente
}.

(** A row yielded by [csv.DictReader]: a dict from the header's column
    names to the field, [None] where the line is shorter than the
    header. *)
Abbreviation fila_csv := (gmap pystr (option pystr)).

(** The lines of the run's log that carry data, and the warnings.  The
    banner lines are left out; so are the [log.debug] lines, which the
    configured level (INFO) does not emit. *)
Inductive log_event :=
  | LogStagingProgreso (filas_ok : nat)
  | LogCsvCargado (filas_ok filas_error : nat)
  | LogCiiusInsertados (n : nat)
  | LogUbicacionesInsertadas (n : nat)
  | LogTiposAdicionales (n : nat)
  | LogFilasAProcesar (n : nat)
  | LogRegistrosMigrados (insertados : nat)
  | LogMigracionCompleta (insertados descartados : nat)
  | LogRegistroEspecialFallido
  | LogTablaRegistros (count : nat)
  | LogNoSePudoVerificar
  | LogStagingConFilas (n : nat)
  | LogScriptConErrores
  | LogSinConexion.

Definition BATCH_SIZE : nat := 500.

(** The fixed record added at the end of every migration. *)
Definition registro_especial : contribuyente :=
  {| ruc := 611077%Z; id_ciiu := Some (lit "75113"); id_tipo_empresa := lit "A";
     id_tamano := lit "C"; id_ubicacion := Some (lit "CHIMBOTE");
     id_estado := lit "ACTIVO"; id_condicion := lit "HABIDO";
     sexo := lit "ND"; edad := Some 0%Z; c_deuda := 0%float;
     flag22 := Some (lit "HABIDO") |}.

Definition no_nulo {A} (v : option A) : bool :=
  match v with Some _ => true | None => false end.

(** The WHERE clause of the SELECT in [migrar_staging_a_contribuyente]. *)
Definition filtro (r : fila_staging) : bool :=
  (10000 <=? ddp_numruc r)%Z && no_nulo (ddp_ciiu r) && no_nulo (ddp_tpoemp r)
  && no_nulo (ddp_tamano r) && no_nulo (ddp_ubigeo r)
  && no_nulo (ddp_estado r) && no_nulo (ddp_flag22 r).

(** The cleaning applied to one selected row, up to the tuple appended
    to the batch. *)
Definition limpiar_fila (row : fila_staging) : contribuyente :=
  let estado_limpio := limpiar_estado (Some (str_or_empty (ddp_estado row))) in
  let condicion_limpia := limpiar_condicion (Some (str_or_empty (ddp_flag22 row))) in
  let tipo_limpio := limpiar_tipo_empresa (Some (str_or_empty (ddp_tpoemp row))) in
  let tamano_limpio := limpiar_tamano (Some (str_or_empty (ddp_tamano row))) in
  let sexo_limpio := limpiar_sexo (Some (str_or_empty (dds_sexo row))) in
  let deuda_val := match deuda row with Some d => d | None => 0%float end in
  let deuda_val := if PrimFloat.ltb deuda_val 0 then 0%float else deuda_val in
  {| ruc := ddp_numruc row; id_ciiu := ddp_ciiu row;
     id_tipo_empresa := tipo_limpio; id_tamano := tamano_limpio;
     id_ubicacion := ddp_ubigeo row; id_estado := estado_limpio;
     id_condicion := condicion_limpia; sexo := sexo_limpio;
     edad := dds_edad row; c_deuda := deuda_val; flag22 := ddp_flag22 row |}.

(** ** db_connection.py: [execute_sql_file]

    The split of the script on its GO lines is [re.split], a library
    call: the function is modelled from the list of blocks it returns.
    [ejecutar] is [cursor.execute] on the server (in autocommit): the
    state of the server after the block, and the message of the
    [pyodbc.Error] when the block fails. *)

(** [needle in s] on strings. *)
Fixpoint empieza_con (needle s : pystr) : bool :=
  match needle, s with
  | [], _ => true
  | a :: needle', b :: s' => (a =? b)%N && empieza_con needle' s'
  | _ :: _, [] => false
  end.

Fixpoint contiene (needle s : pystr) : bool :=
  empieza_con needle s
  || match s with
     | [] => false
     | _ :: s' => contiene needle s'
     end.

(** The lines [execute_sql_file] logs at level INFO or above. *)
Inductive sql_evento :=
  | SqlBloqueError (bloque : nat) (mensaje : pystr)
  | SqlScriptEjecutado (exitosos errores : nat)
  | SqlErrorEjecutando.

Record estado_sql (S : Type) := EstadoSql {
  servidor : S;
  exitosos : nat;
  errores : nat;
  sql_log : list sql_evento
}.
Arguments EstadoSql {S} servidor exitosos errores sql_log.
Arguments servidor {S} e.
Arguments exitosos {S} e.
Arguments errores {S} e.
Arguments sql_log {S} e.

(** The errors the loop lets pass. *)
Definition ya_existe (error_msg : pystr) : bool :=
  contiene (lit "already exists") error_msg
  || contiene (lit "ya existe") error_msg.

(** One turn of [for i, batch in enumerate(batches)]. *)
Definition paso_sql {S} (ejecutar : S → pystr → S * option pystr)
    (st : estado_sql S) (ib : nat * pystr) : estado_sql S :=
  let batch := strip ib.2 in
  if negb (truthy (Some batch)) then st
  else
    match ejecutar (servidor st) batch with
    | (srv, None) => EstadoSql srv (exitosos st + 1) (errores st) (sql_log st)
    | (srv, Some error_msg) =>
        if ya_existe error_msg
        then EstadoSql srv (exitosos st) (errores st) (sql_log st)
        else EstadoSql srv (exitosos st) (errores st + 1)
               (sql_log st ++ [SqlBloqueError (ib.1 + 1) (take 100 error_msg)])
    end.

(** [execute_sql_file(filepath)]: [batches] is [None] when the file
    cannot be read, [conecta] tells whether the connection to master is
    obtained.  The result is the server after the call, the value
    returned and the log. *)
Definition execute_sql_file {S} (ejecutar : S → pystr → S * option pystr)
    (batches : option (list pystr)) (conecta : bool) (srv : S)
    : S * bool * list sql_evento :=
  match batches with
  | Some batches =>
      if conecta then
        let st := foldl (paso_sql ejecutar) (EstadoSql srv 0 0 [])
                    (imap (λ i b, (i, b)) batches) in
        (servidor st, errores st =? 0,
         sql_log st ++ [SqlScriptEjecutado (exitosos st) (errores st)])
      else (srv, false, [SqlErrorEjecutando])
  | None => (srv, false, [SqlErrorEjecutando])
  end.

(** The blocks of a script that reach the server, in order, each with
    its position among the blocks of the file (from 0). *)
Definition bloques_de (batches : list pystr) : list (nat * pystr) :=
  filter (λ ib, ib.2 ≠ []) (imap (λ i b, (i, strip b)) batches).

(** What a server answers to them, run one after the other from the
    state [srv]: [None] when the block goes through, the message of the
    error otherwise. *)
Fixpoint respuestas {S} (ejecutar : S → pystr → S * option pystr) (srv : S)
    (bloques : list (nat * pystr)) : list (nat * option pystr) :=
  match bloques with
  | [] => []
  | ib :: resto =>
      (ib.1, (ejecutar srv ib.2).2)
      :: respuestas ejecutar (ejecutar srv ib.2).1 resto
  end.

(** The warning that an answer calls for: none for a block that went
    through or whose error says that the object exists. *)
Definition aviso (ir : nat * option pystr) : option sql_evento :=
  match ir.2 with
  | Some error_msg =>
      if ya_existe error_msg then None
      else Some (SqlBloqueError (ir.1 + 1) (take 100 error_msg))
  | None => None
  end.

(** ** spark_job.py: [guardar_resultado_spark] *)

(** A row of RESULTADO_SPARK, as the parameters of its INSERT. *)
Record fila_resultado := FilaResultado {
  nombre_analisis : pystr;
  categoria : pystr;
  metrica : pystr;
  valor_numerico : float;
  valor_texto : pystr
}.

(** [for row in data: cursor.execute(sql, (nombre, ...))] inside the
    open transaction; [resultado_ok] stands for the constraints of the
    table, which are not among the sources. *)
Fixpoint insertar_resultados (resultado_ok : fila_resultado → bool)
    (nombre : pystr) (data : list (pystr * pystr * float * pystr))
    (t : list fila_resultado) : res (list fila_resultado) :=
  match data with
  | [] => Ok t
  | row :: data' =>
      let '(categoria, metrica, valor_num, valor_texto) := row in
      let r := FilaResultado nombre categoria metrica valor_num valor_texto in
      if resultado_ok r
      then insertar_resultados resultado_ok nombre data' (t ++ [r])
      else Raise DBError
  end.

(** [guardar_resultado_spark(nombre, data, conn)] on the committed
    table: the rows of the analysis are deleted, the new ones inserted,
    and the commit comes last, so a refused row raises with nothing
    committed. *)
Definition guardar_resultado_spark (resultado_ok : fila_resultado → bool)
    (nombre : pystr) (data : list (pystr * pystr * float * pystr))
    (t : list fila_resultado) : res (list fila_resultado) :=
  insertar_resultados resultado_ok nombre data
    (filter (λ r, nombre_analisis r ≠ nombre) t).

(** The rows the call inserts for the tuples of [data]. *)
Definition filas_de (nombre : pystr) (data : list (pystr * pystr * float * pystr))
    : list fila_resultado :=
  (λ d, FilaResultado nombre d.1.1.1 d.1.1.2 d.1.2 d.2) <$> data.

(** Decide a closed, decidable proposition by evaluation. *)
Ltac por_calculo := apply (bool_decide_unpack _); vm_compute; exact I.

(** ** Sample instances

    A store, a [float()] and a few extract rows to run the definitions
    on. *)

(** A store that checks the three foreign keys into the catalogs that
    grow, and an age between 0 and 150. *)
Definition row_ok_ejemplo (c : catalogos) (r : contribuyente) : bool :=
  from_option (λ x, bool_decide (x ∈ ACTIVIDAD_ECONOMICA c)) false (id_ciiu r)
  && from_option (λ x, bool_decide (x ∈ UBICACION_GEOGRAFICA c)) false
       (id_ubicacion r)
  && bool_decide (id_tipo_empresa r ∈ TIPO_EMPRESA c)
  && from_option (λ e, (0 <=? e)%Z && (e <=? 150)%Z) true (edad r).

Definition staging_ok_ejemplo (r : fila_staging) : bool := true.

(** [float()] restricted to integer literals. *)
Definition py_float_ejemplo (s : pystr) : option float :=
  (λ z, if (z <? 0)%Z then PrimFloat.opp (PrimFloat.of_uint63 (Uint63.of_Z (- z)))
        else PrimFloat.of_uint63 (Uint63.of_Z z)) <$> py_int s.

(** A complete line of the extract, field by field in the order of the
    INSERT into staging. *)
Definition linea (numruc ciiu tpoemp tamano ubigeo estado flag22 sexo edad
    deuda condicion : string) : fila_csv :=
  list_to_map
    [(lit "ddp_numruc", Some (lit numruc)); (lit "ddp_ciiu", Some (lit ciiu));
     (lit "ddp_tpoemp", Some (lit tpoemp)); (lit "ddp_tamano", Some (lit tamano));
     (lit "ddp_ubigeo", Some (lit ubigeo)); (lit "ddp_estado", Some (lit estado));
     (lit "ddp_flag22", Some (lit flag22)); (lit "dds_sexo", Some (lit sexo));
     (lit "dds_edad", Some (lit edad)); (lit "deuda", Some (lit deuda));
     (lit "condicion", Some (lit condicion))].

(** A line that stops after its second field: the reader fills the
    other columns with [None]. *)
Definition linea_corta (numruc ciiu : string) : fila_csv :=
  list_to_map
    [(lit "ddp_numruc", Some (lit numruc)); (lit "ddp_ciiu", Some (lit ciiu));
     (lit "ddp_tpoemp", None); (lit "ddp_tamano", None);
     (lit "ddp_ubigeo", None); (lit "ddp_estado", None);
     (lit "ddp_flag22", None); (lit "dds_sexo", None);
     (lit "dds_edad", None); (lit "deuda", None); (lit "condicion", None)].

(** A staging row with the given ruc, activity code and age. *)
Definition fila_ejemplo (numruc : Z) (ciiu : string) (e : Z) : fila_staging :=
  FilaStaging numruc (Some (lit ciiu)) (Some (lit "B9")) (Some (lit "C"))
    (Some (lit "CHIMBOTE")) (Some (lit "2ACTIVO")) (Some (lit "2HABIDO"))
    (Some (lit "HOMBRE")) (Some e) (Some 0%float) 0.

Definition cats_ejemplo : catalogos :=
  Catalogos {[lit "5211"; lit "75113"]} {[lit "CHIMBOTE"]}
    {[lit "A"; lit "B"; lit "C"; lit "D"; lit "E"; lit "CE"; lit "-"]}.

Definition base_ejemplo : base := Base [] cats_ejemplo [].

(** [n] staging rows the sample store accepts, with the ids
    20000000 + desde, 20000000 + desde + 1, ... *)
Definition filas_validas (desde n : nat) : list fila_staging :=
  (λ i, fila_ejemplo (20000000 + Z.of_nat i) "5211" 30) <$> seq desde n.

(** A staging row the sample store refuses: the age is out of range. *)
Definition fila_mala : fila_staging := fila_ejemplo 20999999 "5211" 200.

(** An extract of six lines: two taxpayers, a line without ruc, a line
    whose ruc is not a number, a repetition of the first ruc with other
    fields, and a third taxpayer. *)
Definition extracto_ejemplo : list fila_csv :=
  [linea "20100100" "5211" "b9" "C" "CHIMBOTE" "2ACTIVO" "2HABIDO" "HOMBRE"
     "30" "100" "1";
   linea "20100200" "5211" "ZZ" "M" "CHIMBOTE" "ACTIVO" "HABIDO" "MUJER"
     "41" "-5" "1";
   linea "" "5211" "A" "C" "CHIMBOTE" "ACTIVO" "HABIDO" "HOMBRE" "30" "100" "1";
   linea "2010x" "5211" "A" "C" "CHIMBOTE" "ACTIVO" "HABIDO" "HOMBRE"
     "30" "100" "1";
   linea "20100100" "7020" "CE" "G" "NUEVO CHIMBOTE" "INACTIVO" "5" ""
     "" "" "";
   linea "20100300" "7020" "A7" "x" "NUEVO CHIMBOTE" "12" "HABIDO" "mujer"
     "" "0" ""].

(** A line of an extract whose header has no ruc column. *)
Definition linea_sin_columna : fila_csv :=
  delete (lit "ddp_numruc")
    (linea "20100100" "5211" "b9" "C" "CHIMBOTE" "2ACTIVO" "2HABIDO" "HOMBRE"
       "30" "100" "1").

(** A server that keeps the blocks it ran and refuses to run one
    twice. *)
Definition servidor_ejemplo (s : list pystr) (bloque : pystr)
    : list pystr * option pystr :=
  if bool_decide (bloque ∈ s)
  then (s, Some (lit "Database FAVISA_DB already exists. Choose a different database name."))
  else (s ++ [bloque], None).

(** A script of four blocks: a statement, a blank block, another
    statement and the first one again. *)
Definition script_ejemplo : list pystr :=
  [lit "CREATE DATABASE FAVISA_DB "; lit "  ";
   lit " USE FAVISA_DB"; lit "CREATE DATABASE FAVISA_DB"].

(** A result table that holds categories of at most 100 characters. *)
Definition resultado_ok_ejemplo (r : fila_resultado) : bool :=
  bool_decide (length (categoria r) ≤ 100).

Definition datos_ejemplo : list (pystr * pystr * float * pystr) :=
  [(lit "ACTIVO", lit "cantidad", 3%float, lit "3");
   (lit "ND", lit "cantidad", 1%float, lit "1")].

(** A result table with rows of two analyses. *)
Definition resultados_ejemplo : list fila_resultado :=
  [FilaResultado (lit "Por Estado") (lit "ACTIVO") (lit "cantidad") 9%float
     (lit "9");
   FilaResultado (lit "Demografia") (lit "HOMBRE") (lit "cantidad") 2%float
     (lit "2");
   FilaResultado (lit "Por Estado") (lit "BAJA") (lit "cantidad") 1%float
     (lit "1")].

(** ** The store

    The schema (sql/init.sql) is not among the sources, so what the
    store checks on a row is taken as a parameter: [row_ok] for the
    constraints of CONTRIBUYENTE other than its key (the foreign keys
    into the catalogs, the CHECKs, the column types), [staging_ok] for
    those of the staging table.  [py_float] is [float()] on a string,
    [None] for [ValueError]. *)

Section Pipeline.

Set Default Proof Using "Type".

Variable row_ok : catalogos → contribuyente → bool.
Variable staging_ok : fila_staging → bool.
Variable py_float : pystr → option float.

(** Modelled from the spec: the declaration of CONTRIBUYENTE is missing
    (sql/init.sql); the spec has [business_id] unique across the
    canonical store, enforced by the store.  An INSERT goes through when
    the row passes [row_ok] and no row of the table has its ruc. *)
Definition insert_ok (c : catalogos) (t : list contribuyente)
    (r : contribuyente) : bool :=
  row_ok c r && negb (bool_decide (ruc r ∈ ruc <$> t)).

(** [cursor.execute(sql_insert, single_row)]: the table with the row
    added, or [None] when the store raises. *)
Definition execute (c : catalogos) (t : list contribuyente)
    (r : contribuyente) : option (list contribuyente) :=
  if insert_ok c t r then Some (t ++ [r]) else None.

(** [cursor.executemany(sql_insert, batch)] inside one transaction: the
    rows go in one after the other and the first refusal raises. *)
Fixpoint executemany (c : catalogos) (t : list contribuyente)
    (batch : list contribuyente) : option (list contribuyente) :=
  match batch with
  | [] => Some t
  | r :: batch' =>
      match execute c t r with
      | Some t' => executemany c t' batch'
      | None => None
      end
  end.

(** ** Migration engine: [migrar_staging_a_contribuyente] *)

(** The committed table and the two counters. *)
Record tally := Tally {
  tabla : list contribuyente;
  insertados : nat;
  descartados : nat
}.

(** The inner [try: execute; commit; insertados += 1
    except: descartados += 1; rollback]. *)
Definition uno_a_uno (c : catalogos) (k : tally) (single_row : contribuyente)
    : tally :=
  match execute c (tabla k) single_row with
  | Some t' => Tally t' (insertados k + 1) (descartados k)
  | None => Tally (tabla k) (insertados k) (descartados k + 1)
  end.

(** The [try: executemany; commit; insertados += len(batch)
    except: rollback; for single_row in batch: ...] block, which the
    source has twice: for a full batch and for the last one. *)
Definition insertar_lote (c : catalogos) (k : tally)
    (batch : list contribuyente) : tally :=
  match executemany c (tabla k) batch with
  | Some t' => Tally t' (insertados k + length batch) (descartados k)
  | None => foldl (uno_a_uno c) k batch
  end.

Record estado_mig := EstadoMig {
  batch : list contribuyente;
  cuenta : tally;
  ruc_set : gset Z;
  m_log : list log_event
}.

(** One turn of [for row in rows]. *)
Definition paso_migrar (c : catalogos) (st : estado_mig) (row : fila_staging)
    : estado_mig :=
  let r := limpiar_fila row in
  if bool_decide (ddp_numruc row ∈ ruc_set st) then
    EstadoMig (batch st)
      (Tally (tabla (cuenta st)) (insertados (cuenta st))
             (descartados (cuenta st) + 1))
      (ruc_set st) (m_log st)
  else
    let ruc_set' := {[ddp_numruc row]} ∪ ruc_set st in
    let batch' := batch st ++ [r] in
    if BATCH_SIZE <=? length batch' then
      let k := insertar_lote c (cuenta st) batch' in
      EstadoMig [] k ruc_set'
        (if insertados k mod 10000 =? 0
         then m_log st ++ [LogRegistrosMigrados (insertados k)]
         else m_log st)
    else EstadoMig batch' (cuenta st) ruc_set' (m_log st).

(** The closing statement: insert the fixed record if no row has its
    ruc; a refusal of the store is logged and nothing else. *)
Definition insertar_registro_especial (c : catalogos)
    (t : list contribuyente) : list contribuyente * list log_event :=
  if bool_decide (ruc registro_especial ∈ ruc <$> t) then (t, [])
  else
    match execute c t registro_especial with
    | Some t' => (t', [])
    | None => (t, [LogRegistroEspecialFallido])
    end.

(** The loop and the last batch: the committed table and the counters
    at the closing log line, with the log so far. *)
Definition migrar_lotes (c : catalogos) (rows : list fila_staging)
    : tally * list log_event :=
  let st0 := EstadoMig [] (Tally [] 0 0) ∅ [LogFilasAProcesar (length rows)] in
  let st := foldl (paso_migrar c) st0 rows in
  let k := match batch st with
           | [] => cuenta st
           | _ :: _ => insertar_lote c (cuenta st) (batch st)
           end in
  (k, m_log st ++ [LogMigracionCompleta (insertados k) (descartados k)]).

(** The state when the function returns: the batches, then the fixed
    record. *)
Definition migrar_final (c : catalogos) (rows : list fila_staging)
    : tally * list log_event :=
  let '(k, log) := migrar_lotes c rows in
  let '(t, w) := insertar_registro_especial c (tabla k) in
  (Tally t (insertados k) (descartados k), log ++ w).

(** [migrar_staging_a_contribuyente(conn)]: the database after the
    call, the log lines, and the value returned ([return insertados]). *)
Definition migrar_staging_a_contribuyente (db : base)
    : base * list log_event * nat :=
  let rows := filter (λ r, filtro r = true) (TMP_DataOZ_Staging db) in
  let '(k, log) := migrar_final (cats db) rows in
  (Base (TMP_DataOZ_Staging db) (cats db) (tabla k), log, insertados k).

(** ** Staging reader: [cargar_csv_a_staging] *)

(** [row[k]] *)
Definition getitem (row : fila_csv) (k : string) : res (option pystr) :=
  match row !! lit k with
  | Some v => Ok v
  | None => Raise KeyError
  end.

(** [conv(row[k]) if row[k].strip() else None]; a field that is [None]
    has no [strip]. *)
Definition convertir {A} (conv : pystr → option A) (row : fila_csv)
    (k : string) : res (option A) :=
  v ←? getitem row k;
  match v with
  | None => Raise AttributeError
  | Some raw =>
      if truthy (Some (strip raw)) then
        match conv raw with
        | Some x => Ok (Some x)
        | None => Raise ValueError
        end
      else Ok None
  end.

(** [row[k].strip() or None] *)
Definition texto (row : fila_csv) (k : string) : res (option pystr) :=
  v ←? getitem row k;
  match v with
  | None => Raise AttributeError
  | Some raw =>
      let s := strip raw in
      Ok (if truthy (Some s) then Some s else None)
  end.

(** The conversions of the [try] body: [Ok None] is the [continue] of a
    row without ruc, [Ok (Some f)] the tuple appended to the batch. *)
Definition leer_fila (row : fila_csv) : res (option fila_staging) :=
  ruc ←? convertir py_int row "ddp_numruc";
  edad ←? convertir py_int row "dds_edad";
  deuda ←? convertir py_float row "deuda";
  condicion ←? convertir py_int row "condicion";
  match ruc with
  | None => Ok None
  | Some ruc =>
      ciiu ←? texto row "ddp_ciiu";
      tpoemp ←? texto row "ddp_tpoemp";
      tamano ←? texto row "ddp_tamano";
      ubigeo ←? texto row "ddp_ubigeo";
      estado ←? texto row "ddp_estado";
      flag22 ←? texto row "ddp_flag22";
      sexo ←? texto row "dds_sexo";
      Ok (Some (FilaStaging ruc ciiu tpoemp tamano ubigeo estado flag22 sexo
                  edad (Some (default 0%float deuda)) (default 0%Z condicion)))
  end.

Record estado_carga := EstadoCarga {
  c_batch : list fila_staging;
  filas_ok : nat;
  filas_error : nat;
  c_tabla : list fila_staging;
  c_log : list log_event
}.

(** [cursor.executemany(sql_insert, batch); conn.commit()] on the
    staging table; a refusal of the store is not caught anywhere. *)
Definition insertar_staging (t batch : list fila_staging)
    : res (list fila_staging) :=
  if forallb staging_ok batch then Ok (t ++ batch) else Raise DBError.

(** One turn of [for i, row in enumerate(reader)]: only [ValueError]
    and [KeyError] are caught. *)
Definition paso_carga (st : estado_carga) (row : fila_csv)
    : res estado_carga :=
  match leer_fila row with
  | Raise ValueError | Raise KeyError =>
      Ok (EstadoCarga (c_batch st) (filas_ok st) (filas_error st + 1)
            (c_tabla st) (c_log st))
  | Raise e => Raise e
  | Ok None => Ok st
  | Ok (Some f) =>
      let batch := c_batch st ++ [f] in
      if BATCH_SIZE <=? length batch then
        t ←? insertar_staging (c_tabla st) batch;
        let ok := filas_ok st + length batch in
        Ok (EstadoCarga [] ok (filas_error st) t
              (if ok mod 10000 =? 0
               then c_log st ++ [LogStagingProgreso ok]
               else c_log st))
      else
        Ok (EstadoCarga batch (filas_ok st) (filas_error st)
              (c_tabla st) (c_log st))
  end.

Fixpoint leer_filas (st : estado_carga) (reader : list fila_csv)
    : res estado_carga :=
  match reader with
  | [] => Ok st
  | row :: reader' => st' ←? paso_carga st row; leer_filas st' reader'
  end.

(** The state after the loop and the last batch, before the final log
    line. *)
Definition cargar_final (reader : list fila_csv) : res estado_carga :=
  st ←? leer_filas (EstadoCarga [] 0 0 [] []) reader;
  match c_batch st with
  | [] => Ok st
  | _ :: _ =>
      t ←? insertar_staging (c_tabla st) (c_batch st);
      Ok (EstadoCarga [] (filas_ok st + length (c_batch st)) (filas_error st)
            t (c_log st))
  end.

(** [cargar_csv_a_staging(conn)] on the rows of the extract: the
    staging table is emptied first; the result is the database, the log
    lines and the value returned ([return filas_ok]). *)
Definition cargar_csv_a_staging (reader : list fila_csv) (db : base)
    : res (base * list log_event * nat) :=
  st ←? cargar_final reader;
  Ok (Base (c_tabla st) (cats db) (CONTRIBUYENTE db),
      c_log st ++ [LogCsvCargado (filas_ok st) (filas_error st)],
      filas_ok st).

(** ** Catalog resolver: [poblar_catalogos] *)

(** One turn of [for tipo in tipos_csv]. *)
Definition paso_tipo (acc : gset pystr * nat) (tipo : pystr)
    : gset pystr * nat :=
  let tipo_limpio := limpiar_tipo_empresa (Some tipo) in
  if bool_decide (tipo_limpio ∈ acc.1) then acc
  else ({[tipo_limpio]} ∪ acc.1, acc.2 + 1).

Definition poblar_catalogos (db : base) : base * list log_event :=
  let st := TMP_DataOZ_Staging db in
  let c := cats db in
  let ciius : gset pystr :=
    list_to_set (omap ddp_ciiu st) ∖ ACTIVIDAD_ECONOMICA c in
  let ubigeos : gset pystr :=
    list_to_set (omap ddp_ubigeo st) ∖ UBICACION_GEOGRAFICA c in
  let tipos_csv := remove_dups (omap ddp_tpoemp st) in
  let '(tipos, nuevos_tipos) := foldl paso_tipo (TIPO_EMPRESA c, 0) tipos_csv in
  (Base st
     (Catalogos (ACTIVIDAD_ECONOMICA c ∪ ciius) (UBICACION_GEOGRAFICA c ∪ ubigeos)
        tipos)
     (CONTRIBUYENTE db),
   [LogCiiusInsertados (size ciius); LogUbicacionesInsertadas (size ubigeos)]
   ++ (if nuevos_tipos =? 0 then [] else [LogTiposAdicionales nuevos_tipos])).

(** ** db_connection.py: [check_table_has_data]

    [consulta] is the outcome of connecting and counting the rows of the
    table: [None] when any of it raises. *)
Definition check_table_has_data (consulta : option nat) (min_rows : nat)
    : bool * list log_event :=
  match consulta with
  | Some count => (min_rows <=? count, [LogTablaRegistros count])
  | None => (false, [LogNoSePudoVerificar])
  end.

(** ** The orchestrator: [main] *)

(** The functions [main] calls on the database, in the order of the
    source. *)
Inductive etapa :=
  | EtapaStaging | EtapaCatalogos | EtapaMigracion | EtapaSpark | EtapaResumen.

(** What the run meets outside the program.  [conexion_ok] and [sql_ok]
    are the results of [test_connection] and [execute_sql_file], which
    catch every exception; [consulta_ok] tells whether
    [check_table_has_data] gets its connection and the answer to its
    count query.  [conectar] is the exception that
    [conn = get_connection()] raises once its time is up.  [falla] is
    the exception with which the server fails a statement that the
    function of a stage does not guard: the DELETE that opens
    [cargar_csv_a_staging] and the opening of the extract, the
    statements of [poblar_catalogos], the DELETE and the SELECT that open
    [migrar_staging_a_contribuyente], the queries of [mostrar_resumen]
    and the closing of the connection after it.  [main] catches none of
    these.  [ejecutar_spark] catches whatever the Spark job raises and
    [main] ignores its result, so [falla] is not asked about
    [EtapaSpark]. *)
Record entorno := Entorno {
  conexion_ok : bool;
  sql_ok : bool;
  consulta_ok : bool;
  conectar : option exn;
  falla : etapa → option exn
}.

(** A server that fails no statement. *)
Definition sin_fallas : etapa → option exn := λ _, None.

(** The outcome of the row count of CONTRIBUYENTE that
    [check_table_has_data] asks for. *)
Definition contar_contribuyente (env : entorno) (db : base) : option nat :=
  if consulta_ok env then Some (length (CONTRIBUYENTE db)) else None.

Inductive resultado :=
  | Finalizado (db : base)
  | Exit (code : Z)
  | Excepcion (e : exn).

(** A run: how it ended, the functions of the stages it called, in
    order, and the lines it logged before the call that ended it. *)
Record corrida := Corrida {
  salida : resultado;
  etapas : list etapa;
  registro : list log_event
}.

(** The end of [main], after the [if]: [ejecutar_spark()],
    [mostrar_resumen(conn)] and [conn.close()].  The summary only reads
    the database and prints to the console, which is not modelled: what
    is kept of it is that it is called and that it may raise. *)
Definition terminar (env : entorno) (antes : list etapa)
    (log : list log_event) (db : base) : corrida :=
  Corrida
    match falla env EtapaResumen with
    | Some e => Excepcion e
    | None => Finalizado db
    end
    (antes ++ [EtapaSpark; EtapaResumen]) log.

(** [main()], from the state the initialisation script leaves (the
    script is not among the sources). *)
Definition main (env : entorno) (reader : list fila_csv) (db : base)
    : corrida :=
  if negb (conexion_ok env) then Corrida (Exit 1) [] [LogSinConexion]
  else
    let log0 := if sql_ok env then [] else [LogScriptConErrores] in
    match conectar env with
    | Some e => Corrida (Excepcion e) [] log0
    | None =>
        let '(hay_datos, log1) :=
          check_table_has_data (contar_contribuyente env db) 100 in
        if negb hay_datos then
          match falla env EtapaStaging, cargar_csv_a_staging reader db with
          | Some e, _ | None, Raise e =>
              Corrida (Excepcion e) [EtapaStaging] (log0 ++ log1)
          | None, Ok (db1, log2, filas_staging) =>
              let log :=
                log0 ++ log1 ++ log2 ++ [LogStagingConFilas filas_staging] in
              match falla env EtapaCatalogos with
              | Some e =>
                  Corrida (Excepcion e) [EtapaStaging; EtapaCatalogos] log
              | None =>
                  let '(db2, log3) := poblar_catalogos db1 in
                  match falla env EtapaMigracion with
                  | Some e =>
                      Corrida (Excepcion e)
                        [EtapaStaging; EtapaCatalogos; EtapaMigracion]
                        (log ++ log3)
                  | None =>
                      let '(db3, log4, _) :=
                        migrar_staging_a_contribuyente db2 in
                      terminar env
                        [EtapaStaging; EtapaCatalogos; EtapaMigracion]
                        (log ++ log3 ++ log4) db3
                  end
              end
          end
        else terminar env [] (log0 ++ log1) db
    end.

(** ** The dedup rule in the spec's words

    A row is kept when no earlier row carries its business id, and is a
    repetition otherwise; [previas] holds the rows met so far. *)

Fixpoint primeras_desde (previas rows : list fila_staging)
    : list fila_staging :=
  match rows with
  | [] => []
  | r :: rows' =>
      if bool_decide (ddp_numruc r ∈ ddp_numruc <$> previas)
      then primeras_desde (previas ++ [r]) rows'
      else r :: primeras_desde (previas ++ [r]) rows'
  end.

Fixpoint repetidas_desde (previas rows : list fila_staging)
    : list fila_staging :=
  match rows with
  | [] => []
  | r :: rows' =>
      if bool_decide (ddp_numruc r ∈ ddp_numruc <$> previas)
      then r :: repetidas_desde (previas ++ [r]) rows'
      else repetidas_desde (previas ++ [r]) rows'
  end.

Definition primeras := primeras_desde [].
Definition repetidas := repetidas_desde [].

(** The cleaned rows the store accepts, and those it refuses. *)
Definition aceptadas (c : catalogos) (l : list contribuyente)
    : list contribuyente :=
  filter (λ r, row_ok c r = true) l.

Definition rechazadas (c : catalogos) (l : list contribuyente)
    : list contribuyente :=
  filter (λ r, row_ok c r = false) l.

(** ** Definitions used by the proofs *)

(** What the loop maintains after the rows [previas]: [ruc_set] holds
    their ids, and the ids in the table and in the pending batch are
    among them and pairwise distinct. *)
Definition inv_migrar (st : estado_mig) (previas : list fila_staging) : Prop :=
  (∀ z, z ∈ ruc_set st ↔ z ∈ ddp_numruc <$> previas)
  ∧ NoDup (ruc <$> (tabla (cuenta st) ++ batch st))
  ∧ (∀ z, z ∈ ruc <$> (tabla (cuenta st) ++ batch st) →
          z ∈ ddp_numruc <$> previas).

(** The table, and the counters, once the pending batch is written. *)
Definition tabla_prevista c (st : estado_mig) : list contribuyente :=
  tabla (cuenta st) ++ aceptadas c (batch st).

Definition insertados_previstos c (st : estado_mig) : nat :=
  insertados (cuenta st) + length (aceptadas c (batch st)).

Definition descartados_previstos c (st : estado_mig) : nat :=
  descartados (cuenta st) + length (rechazadas c (batch st)).

(** Reduce the projections of the records, and nothing else. *)
Ltac proyectar :=
  cbn [batch cuenta ruc_set m_log tabla insertados descartados].

(** The catalogs after [poblar_catalogos] over the staging rows [st]. *)
Definition catalogos_resueltos (st : list fila_staging) (c : catalogos)
    : catalogos :=
  Catalogos
    (ACTIVIDAD_ECONOMICA c
     ∪ list_to_set (omap ddp_ciiu st) ∖ ACTIVIDAD_ECONOMICA c)
    (UBICACION_GEOGRAFICA c
     ∪ list_to_set (omap ddp_ubigeo st) ∖ UBICACION_GEOGRAFICA c)
    (foldl paso_tipo (TIPO_EMPRESA c, 0) (remove_dups (omap ddp_tpoemp st))).1.

(** The database after the three load stages, from the staging rows
    [stg] that the reader wrote. *)
Definition tras_carga (stg : list fila_staging) (db : base) : base :=
  (migrar_staging_a_contribuyente
     (poblar_catalogos (Base stg (cats db) (CONTRIBUYENTE db))).1).1.1.

(** A string with no white space at its start; at either end. *)
Definition sin_espacio_inicial (s : pystr) : Prop :=
  match s with
  | [] => True
  | c :: _ => is_space c = false
  end.

Definition recortada (s : pystr) : Prop :=
  sin_espacio_inicial s ∧ sin_espacio_inicial (rev s).

(** A text column as the staging reader writes it: NULL, or a string
    that is not empty and has no white space around it. *)
Definition texto_limpio (v : option pystr) : Prop :=
  match v with
  | None => True
  | Some s => s ≠ [] ∧ recortada s
  end.

(** The staging records that the rows of the extract yield, in order. *)
Fixpoint filas_aceptadas (reader : list fila_csv) : list fila_staging :=
  match reader with
  | [] => []
  | row :: reader' =>
      match leer_fila row with
      | Ok (Some f) => f :: filas_aceptadas reader'
      | _ => filas_aceptadas reader'
      end
  end.

(** A row whose conversions raise one of the two exceptions the loop
    catches, and a row whose conversions raise another one. *)
Definition fila_con_error (row : fila_csv) : bool :=
  match leer_fila row with
  | Raise ValueError | Raise KeyError => true
  | _ => false
  end.

Definition fila_fatal (row : fila_csv) : bool :=
  match leer_fila row with
  | Raise AttributeError | Raise DBError => true
  | _ => false
  end.

(** The staging rows that pass the filter of the migration. *)
Definition filas_filtradas (db : base) : list fila_staging :=
  filter (λ r, filtro r = true) (TMP_DataOZ_Staging db).

(** Open a normalizer along its tests. *)
Ltac normalizador :=
  intros; cbv beta delta [limpiar_estado limpiar_condicion limpiar_tipo_empresa
                          limpiar_sexo limpiar_tamano in_tuple] zeta;
  destruct (truthy _); simpl;
  try (destruct (upper _) as [|? ?] eqn:?);
  repeat case_bool_decide.

(** Membership of one explicit list in another, case by case. *)
Ltac en_lista :=
  repeat match goal with
    | H : _ ∈ _ :: _ |- _ => apply elem_of_cons in H as [-> | H]
    | H : _ ∈ [] |- _ => by apply elem_of_nil in H
    end;
  by (repeat first [ left | right ]).

(** Open the tests of [upper_cp] and [is_space] into arithmetic. *)
Ltac abrir_cp :=
  unfold upper_cp;
  repeat match goal with
    | |- context [(?a <=? ?b)%N] => destruct (N.leb_spec a b)
    | |- context [(?a =? ?b)%N] => destruct (N.eqb_spec a b)
    end;
  cbn [andb negb orb].

(** Close an arithmetic goal on a code point that is no white space;
    [lema] characterises [is_space c = false]. *)
Ltac fuera_de_lista lema :=
  rewrite ?lema in *;
  repeat match goal with
    | H : _ ∧ _ |- _ => destruct H
    | |- _ ∧ _ => split
    end;
  rewrite ?elem_of_cons, ?elem_of_nil in *; lia.

(** Close [f (Some y) = y] for every [y] of an explicit list. *)
Ltac cada_codigo :=
  repeat match goal with
    | H : _ ∈ _ :: _ |- _ => apply elem_of_cons in H as [-> | H]
    | H : _ ∈ [] |- _ => by apply elem_of_nil in H
    end;
  reflexivity.

(** Unfold a normalizer on both sides of [f (Some v) = f (Some s)], [v]
    being the trimmed, upper-cased [s]; [lema] states that [v] is a fixed
    point of trimming and upper-casing. *)
Ltac insensible f lema :=
  intros s; destruct s as [|a s]; [reflexivity|];
  pose proof (lema (a :: s)) as Hfix;
  destruct (upper (strip (a :: s))) as [|c r] eqn:E;
  [ unfold f; cbn [truthy negb str_or_empty]; rewrite E; reflexivity
  | unfold f; cbn [truthy negb str_or_empty]; rewrite E, Hfix; reflexivity ].

(** Project the fields of the reader's and of the script runner's state. *)
Ltac proyectar_carga :=
  cbn [c_batch filas_ok filas_error c_tabla c_log res_bind].

Ltac proyectar_sql := cbn [servidor exitosos errores sql_log fst snd].

(** * Properties *)

(** ** Field normalizers *)

Lemma no_en_tupla (v : pystr) (t : list pystr) : in_tuple v t = false → v ∉ t.
Proof. unfold in_tuple. intros H. by apply bool_decide_eq_false in H. Qed.

(** C4. Every field normalizer is total and lands in its closed code
    set: whatever the input, absent ([None]), empty or garbage, the
    result of each of the five normalizers is one of that normalizer's
    codes, and an absent or empty input gives the fallback code. *)
Theorem limpiar_total (valor : option pystr) :
  limpiar_estado valor ∈ codigos_estado
  ∧ limpiar_condicion valor ∈ codigos_condicion
  ∧ limpiar_tipo_empresa valor ∈ codigos_tipo_empresa
  ∧ limpiar_sexo valor ∈ codigos_sexo
  ∧ limpiar_tamano valor ∈ codigos_tamano
  ∧ (limpiar_estado None = lit "ND" ∧ limpiar_estado (Some []) = lit "ND")
  ∧ (limpiar_condicion None = lit "ND" ∧ limpiar_condicion (Some []) = lit "ND")
  ∧ (limpiar_tipo_empresa None = lit "-"
     ∧ limpiar_tipo_empresa (Some []) = lit "-")
  ∧ (limpiar_sexo None = lit "ND" ∧ limpiar_sexo (Some []) = lit "ND")
  ∧ (limpiar_tamano None = lit "C" ∧ limpiar_tamano (Some []) = lit "C").
Proof.
  repeat split; try reflexivity.
  - normalizador; unfold codigos_estado; en_lista.
  - normalizador; unfold codigos_condicion; en_lista.
  - normalizador; unfold codigos_tipo_empresa; en_lista.
  - normalizador; unfold codigos_sexo; en_lista.
  - normalizador; unfold codigos_tamano; en_lista.
Qed.

(** C7. Company type: on the trimmed, upper-cased input [v], the seven
    exact values A, B, C, D, E, CE and - pass through; any other [v]
    whose first character is one of A..E gives that character alone;
    everything else gives -.  So B9 becomes B and ZZ becomes -. *)
Theorem limpiar_tipo_empresa_regla (s : pystr) :
  let v := upper (strip s) in
  (v ∈ codigos_tipo_empresa → limpiar_tipo_empresa (Some s) = v)
  ∧ (∀ c resto, v = c :: resto → v ∉ codigos_tipo_empresa →
       [c] ∈ [lit "A"; lit "B"; lit "C"; lit "D"; lit "E"] →
       limpiar_tipo_empresa (Some s) = [c])
  ∧ (v ∉ codigos_tipo_empresa →
       (∀ c resto, v = c :: resto →
          [c] ∉ [lit "A"; lit "B"; lit "C"; lit "D"; lit "E"]) →
       limpiar_tipo_empresa (Some s) = lit "-")
  ∧ limpiar_tipo_empresa (Some (lit "B9")) = lit "B"
  ∧ limpiar_tipo_empresa (Some (lit "ZZ")) = lit "-".
Proof.
  cbv zeta. split; [|split; [|split; [|split; reflexivity]]].
  - intros Hv. destruct s as [|a s];
      [exfalso; apply (no_en_tupla [] codigos_tipo_empresa);
       [by vm_compute | exact Hv]|].
    unfold limpiar_tipo_empresa, in_tuple; simpl truthy; cbv iota beta.
    simpl negb. cbv iota. unfold str_or_empty.
    by rewrite bool_decide_eq_true_2.
  - intros c resto Hc Hv Hin. destruct s as [|a s]; [done|].
    unfold limpiar_tipo_empresa, in_tuple; simpl truthy; simpl negb.
    cbv iota. unfold str_or_empty.
    rewrite (bool_decide_eq_false_2 _ Hv), Hc.
    by rewrite bool_decide_eq_true_2.
  - intros Hv Hc. destruct s as [|a s]; [done|].
    unfold limpiar_tipo_empresa, in_tuple; simpl truthy; simpl negb.
    cbv iota. unfold str_or_empty.
    rewrite (bool_decide_eq_false_2 _ Hv).
    destruct (upper (strip (a :: s))) as [|c resto] eqn:E; [done|].
    by rewrite bool_decide_eq_false_2; [|eapply Hc].
Qed.

(** C8. Tax status: on the trimmed, upper-cased input [v], the corrupted
    2ACTIVO gives ACTIVO; ACTIVO, INACTIVO and the codes 1, 2, 3, 10, 11
    and 12 pass through; every other input, the empty and the absent one
    included, gives ND. *)
Theorem limpiar_estado_regla (s : pystr) :
  let v := upper (strip s) in
  (v = lit "2ACTIVO" → limpiar_estado (Some s) = lit "ACTIVO")
  ∧ (v ∈ [lit "ACTIVO"; lit "INACTIVO"; lit "1"; lit "2"; lit "3";
          lit "10"; lit "11"; lit "12"] → limpiar_estado (Some s) = v)
  ∧ (v ≠ lit "2ACTIVO" →
     v ∉ [lit "ACTIVO"; lit "INACTIVO"; lit "1"; lit "2"; lit "3";
          lit "10"; lit "11"; lit "12"] → limpiar_estado (Some s) = lit "ND")
  ∧ limpiar_estado (Some []) = lit "ND"
  ∧ limpiar_estado None = lit "ND".
Proof.
  cbv zeta. split; [|split; [|split; [|split; reflexivity]]].
  - intros Hv. destruct s as [|a s]; [by vm_compute in Hv|].
    unfold limpiar_estado; simpl truthy; simpl negb; cbv iota.
    unfold str_or_empty. by rewrite bool_decide_eq_true_2.
  - intros Hv. destruct s as [|a s];
      [exfalso; eapply (no_en_tupla []); [|exact Hv]; by vm_compute|].
    unfold limpiar_estado, in_tuple; simpl truthy; simpl negb; cbv iota.
    unfold str_or_empty.
    rewrite bool_decide_eq_false_2;
      [|intros E; rewrite E in Hv; eapply (no_en_tupla (lit "2ACTIVO"));
        [|exact Hv]; by vm_compute].
    rewrite bool_decide_eq_true_2; [done|en_lista].
  - intros Hne Hv. destruct s as [|a s]; [done|].
    unfold limpiar_estado, in_tuple; simpl truthy; simpl negb; cbv iota.
    unfold str_or_empty.
    rewrite (bool_decide_eq_false_2 _ Hne).
    rewrite bool_decide_eq_false_2; [done|].
    intros Hin. apply Hv. en_lista.
Qed.

(** ** Migration engine: a batch *)

Lemma execute_nuevo c t r :
  ruc r ∉ ruc <$> t →
  execute c t r = if row_ok c r then Some (t ++ [r]) else None.
Proof.
  intros Hr. unfold execute, insert_ok.
  rewrite (bool_decide_eq_false_2 _ Hr). by destruct (row_ok c r).
Qed.

Lemma sin_repetir_cabeza (t : list contribuyente) r b :
  NoDup (ruc <$> (t ++ r :: b)) →
  (ruc r ∉ ruc <$> t) ∧ NoDup (ruc <$> ((t ++ [r]) ++ b)).
Proof.
  intros H. split.
  - rewrite fmap_app, fmap_cons in H. apply NoDup_app in H as (_ & H & _).
    intros Hin. apply (H _ Hin). by left.
  - by rewrite <- app_assoc.
Qed.

Lemma aceptadas_cons c r l :
  aceptadas c (r :: l) = if row_ok c r then r :: aceptadas c l else aceptadas c l.
Proof.
  unfold aceptadas. rewrite filter_cons.
  destruct (row_ok c r); by case_decide.
Qed.

Lemma rechazadas_cons c r l :
  rechazadas c (r :: l)
  = if row_ok c r then rechazadas c l else r :: rechazadas c l.
Proof.
  unfold rechazadas. rewrite filter_cons.
  destruct (row_ok c r); by case_decide.
Qed.

Lemma aceptadas_nil c : aceptadas c [] = [].
Proof. done. Qed.

Lemma rechazadas_nil c : rechazadas c [] = [].
Proof. done. Qed.

Lemma aceptadas_app c l1 l2 :
  aceptadas c (l1 ++ l2) = aceptadas c l1 ++ aceptadas c l2.
Proof. apply filter_app. Qed.

Lemma rechazadas_app c l1 l2 :
  rechazadas c (l1 ++ l2) = rechazadas c l1 ++ rechazadas c l2.
Proof. apply filter_app. Qed.

Lemma aceptadas_rechazadas_length c l :
  length (aceptadas c l) + length (rechazadas c l) = length l.
Proof.
  induction l as [|r l IH]; [done|].
  rewrite aceptadas_cons, rechazadas_cons.
  destruct (row_ok c r); simpl; lia.
Qed.

Lemma aceptadas_todas c l :
  forallb (row_ok c) l = true → aceptadas c l = l ∧ rechazadas c l = [].
Proof.
  induction l as [|r l IH]; [done|]. simpl.
  rewrite aceptadas_cons, rechazadas_cons.
  destruct (row_ok c r); [|done]. simpl. intros H.
  destruct (IH H) as [-> ->]. done.
Qed.

Lemma executemany_sin_repetir c b : ∀ t,
  NoDup (ruc <$> (t ++ b)) →
  executemany c t b = if forallb (row_ok c) b then Some (t ++ b) else None.
Proof.
  induction b as [|r b IH]; intros t H; simpl.
  - by rewrite app_nil_r.
  - apply sin_repetir_cabeza in H as [Hr H].
    rewrite (execute_nuevo _ _ _ Hr).
    destruct (row_ok c r); [|done]. simpl.
    rewrite (IH _ H). by rewrite <- app_assoc.
Qed.

Lemma uno_a_uno_sin_repetir c b : ∀ k,
  NoDup (ruc <$> (tabla k ++ b)) →
  foldl (uno_a_uno c) k b
  = Tally (tabla k ++ aceptadas c b)
      (insertados k + length (aceptadas c b))
      (descartados k + length (rechazadas c b)).
Proof.
  induction b as [|r b IH]; intros [t i d] H; simpl in *.
  - rewrite app_nil_r. f_equal; lia.
  - apply sin_repetir_cabeza in H as [Hr H].
    unfold uno_a_uno at 2. simpl. rewrite (execute_nuevo _ _ _ Hr).
    rewrite aceptadas_cons, rechazadas_cons.
    destruct (row_ok c r).
    + rewrite IH by done. simpl. rewrite <- app_assoc. f_equal; lia.
    + rewrite IH; simpl.
      * f_equal; lia.
      * rewrite <- app_assoc in H. simpl in H.
        rewrite fmap_app, fmap_cons in H. rewrite fmap_app.
        apply NoDup_app in H as (H1 & H2 & H3).
        apply NoDup_cons in H3 as [_ H3].
        apply NoDup_app. split; [done|]. split; [|done].
        intros x Hx Hb. apply (H2 x Hx). by right.
Qed.

Lemma insertar_lote_sin_repetir c k b :
  NoDup (ruc <$> (tabla k ++ b)) →
  insertar_lote c k b
  = Tally (tabla k ++ aceptadas c b)
      (insertados k + length (aceptadas c b))
      (descartados k + length (rechazadas c b)).
Proof.
  intros H. unfold insertar_lote.
  rewrite (executemany_sin_repetir _ _ _ H).
  destruct (forallb (row_ok c) b) eqn:E.
  - destruct (aceptadas_todas _ _ E) as [-> ->]. simpl. f_equal; lia.
  - by apply uno_a_uno_sin_repetir.
Qed.

(** ** Migration engine: the loop *)

Lemma primeras_desde_cons previas r rows :
  primeras_desde previas (r :: rows)
  = primeras_desde previas [r] ++ primeras_desde (previas ++ [r]) rows.
Proof. simpl. by case_bool_decide. Qed.

Lemma repetidas_desde_cons previas r rows :
  repetidas_desde previas (r :: rows)
  = repetidas_desde previas [r] ++ repetidas_desde (previas ++ [r]) rows.
Proof. simpl. by case_bool_decide. Qed.

Lemma primeras_repetidas_length rows : ∀ previas,
  length (primeras_desde previas rows) + length (repetidas_desde previas rows)
  = length rows.
Proof.
  induction rows as [|r rows IH]; intros previas; simpl; [done|].
  specialize (IH (previas ++ [r])). case_bool_decide; simpl; lia.
Qed.

Lemma ruc_limpiar_fila row : ruc (limpiar_fila row) = ddp_numruc row.
Proof. done. Qed.

Lemma aceptadas_sublist c l : aceptadas c l `sublist_of` l.
Proof. apply sublist_filter. Qed.

Lemma paso_migrar_inv c st previas r :
  inv_migrar st previas →
  let st' := paso_migrar c st r in
  let nuevas := limpiar_fila <$> primeras_desde previas [r] in
  inv_migrar st' (previas ++ [r])
  ∧ tabla_prevista c st' = tabla_prevista c st ++ aceptadas c nuevas
  ∧ insertados_previstos c st'
    = insertados_previstos c st + length (aceptadas c nuevas)
  ∧ descartados_previstos c st'
    = descartados_previstos c st + length (repetidas_desde previas [r])
      + length (rechazadas c nuevas).
Proof.
  clear staging_ok py_float.
  intros (Hset & Hnd & Hsub). cbv zeta. unfold paso_migrar.
  cbn [primeras_desde repetidas_desde].
  destruct (decide (ddp_numruc r ∈ ruc_set st)) as [Hin|Hin].
  - rewrite (bool_decide_eq_true_2 _ Hin).
    rewrite (bool_decide_eq_true_2 (ddp_numruc r ∈ ddp_numruc <$> previas))
      by by apply Hset.
    unfold tabla_prevista, insertados_previstos, descartados_previstos, inv_migrar.
    proyectar. rewrite fmap_nil, !aceptadas_nil, !rechazadas_nil, app_nil_r.
    cbn [length].
    repeat split; try done; try lia.
    + rewrite fmap_app, elem_of_app. rewrite Hset. by left.
    + rewrite fmap_app, elem_of_app, Hset. intros [?|H]; [done|].
      apply list_elem_of_singleton in H as ->. by apply Hset.
    + intros z Hz. rewrite fmap_app, elem_of_app. left. by apply Hsub.
  - rewrite (bool_decide_eq_false_2 _ Hin).
    rewrite (bool_decide_eq_false_2 (ddp_numruc r ∈ ddp_numruc <$> previas))
      by by rewrite <- Hset.
    set (batch' := batch st ++ [limpiar_fila r]).
    assert (Hset' : ∀ z, z ∈ {[ddp_numruc r]} ∪ ruc_set st
                         ↔ z ∈ ddp_numruc <$> previas ++ [r]).
    { intros z. rewrite fmap_app, elem_of_app, elem_of_union, Hset.
      rewrite elem_of_singleton. cbn [fmap list_fmap].
      rewrite list_elem_of_singleton. tauto. }
    assert (Hnd' : NoDup (ruc <$> (tabla (cuenta st) ++ batch'))).
    { unfold batch'. rewrite app_assoc, fmap_app. apply NoDup_app.
      split; [done|]. split; [|apply NoDup_singleton].
      intros z Hz Hz'. apply list_elem_of_singleton in Hz'.
      subst z. apply Hin, Hset, Hsub, Hz. }
    assert (Hsub' : ∀ z, z ∈ ruc <$> (tabla (cuenta st) ++ batch') →
                         z ∈ ddp_numruc <$> previas ++ [r]).
    { intros z. unfold batch'. rewrite app_assoc, !fmap_app, !elem_of_app.
      intros [Hz|Hz]; [left; apply Hsub; by rewrite fmap_app, elem_of_app|].
      by right. }
    change (limpiar_fila <$> [r]) with [limpiar_fila r]. cbn [length].
    destruct (BATCH_SIZE <=? length batch') eqn:Hlen.
    + rewrite (insertar_lote_sin_repetir _ _ _ Hnd').
      unfold tabla_prevista, insertados_previstos, descartados_previstos, inv_migrar.
      proyectar. unfold batch'.
      rewrite !aceptadas_app, !rechazadas_app, !length_app.
      rewrite !aceptadas_nil, !rechazadas_nil, !app_nil_r. cbn [length].
      split; [|split; [by rewrite app_assoc|split; lia]].
      split; [done|].
      rewrite <- aceptadas_app. fold batch'.
      assert (Hs : ruc <$> (tabla (cuenta st) ++ aceptadas c batch')
                   `sublist_of` ruc <$> (tabla (cuenta st) ++ batch')).
      { apply fmap_sublist, sublist_app; [done|apply aceptadas_sublist]. }
      split; [by eapply sublist_NoDup|].
      intros z Hz. apply Hsub'. by eapply elem_of_sublist.
    + unfold tabla_prevista, insertados_previstos, descartados_previstos, inv_migrar.
      proyectar. fold batch'. unfold batch'.
      rewrite !aceptadas_app, !rechazadas_app, !length_app.
      split; [done|]. split; [by rewrite app_assoc|split; lia].
Qed.

Lemma migrar_bucle c rows : ∀ st previas,
  inv_migrar st previas →
  let st' := foldl (paso_migrar c) st rows in
  let nuevas := limpiar_fila <$> primeras_desde previas rows in
  inv_migrar st' (previas ++ rows)
  ∧ tabla_prevista c st' = tabla_prevista c st ++ aceptadas c nuevas
  ∧ insertados_previstos c st'
    = insertados_previstos c st + length (aceptadas c nuevas)
  ∧ descartados_previstos c st'
    = descartados_previstos c st + length (repetidas_desde previas rows)
      + length (rechazadas c nuevas).
Proof.
  induction rows as [|r rows IH]; intros st previas Hinv; cbv zeta.
  - cbn [foldl primeras_desde repetidas_desde].
    rewrite fmap_nil, aceptadas_nil, rechazadas_nil, !app_nil_r.
    cbn [length]. repeat split; try lia; apply Hinv.
  - cbn [foldl].
    destruct (paso_migrar_inv c st previas r Hinv) as (H1 & HT & HI & HD).
    destruct (IH _ _ H1) as (H1' & HT' & HI' & HD').
    rewrite primeras_desde_cons, repetidas_desde_cons.
    rewrite fmap_app, aceptadas_app, rechazadas_app, !length_app.
    rewrite HT', HI', HD', HT, HI, HD.
    split; [by rewrite <- app_assoc in H1'|].
    split; [by rewrite app_assoc|split; lia].
Qed.

(** The batches in closed form: the table holds the cleaned first
    occurrences that the store accepts, in order; a row is discarded
    when it repeats an id or when the store refuses it. *)
Lemma migrar_lotes_cerrada c rows :
  (migrar_lotes c rows).1
  = Tally (aceptadas c (limpiar_fila <$> primeras rows))
      (length (aceptadas c (limpiar_fila <$> primeras rows)))
      (length (repetidas rows)
       + length (rechazadas c (limpiar_fila <$> primeras rows))).
Proof.
  unfold migrar_lotes. cbv zeta. cbn [fst].
  set (st0 := EstadoMig [] (Tally [] 0 0) ∅ [LogFilasAProcesar (length rows)]).
  assert (H0 : inv_migrar st0 []).
  { split; [|split]; simpl; [set_solver|constructor|set_solver]. }
  destruct (migrar_bucle c rows st0 [] H0) as ((_ & Hnd & _) & HT & HI & HD).
  revert Hnd HT HI HD.
  unfold tabla_prevista, insertados_previstos, descartados_previstos.
  fold primeras repetidas.
  destruct (foldl (paso_migrar c) st0 rows) as [b [t i d] rs lg].
  unfold st0. proyectar. rewrite !aceptadas_nil, !rechazadas_nil.
  cbn [length app]. intros Hnd HT HI HD.
  destruct b as [|r b].
  - rewrite aceptadas_nil, rechazadas_nil, ?app_nil_r in *.
    cbn [length] in *. f_equal; [done|lia|lia].
  - rewrite (insertar_lote_sin_repetir c (Tally t i d) (r :: b) Hnd).
    proyectar. f_equal; [done|lia|lia].
Qed.

Lemma primeras_sin_repetir rows : ∀ previas,
  NoDup (ddp_numruc <$> (previas ++ rows)) →
  primeras_desde previas rows = rows ∧ repetidas_desde previas rows = [].
Proof.
  induction rows as [|r rows IH]; intros previas H; [done|].
  cbn [primeras_desde repetidas_desde].
  assert (Hr : ddp_numruc r ∉ ddp_numruc <$> previas).
  { rewrite fmap_app, fmap_cons in H. apply NoDup_app in H as (_ & H & _).
    intros Hin. apply (H _ Hin). by left. }
  rewrite (bool_decide_eq_false_2 _ Hr).
  rewrite (cons_middle r previas rows), app_assoc in H.
  destruct (IH _ H) as [-> ->]. done.
Qed.

Lemma primeras_desde_NoDup rows : ∀ previas,
  NoDup (ddp_numruc <$> primeras_desde previas rows)
  ∧ ∀ z, z ∈ ddp_numruc <$> primeras_desde previas rows →
         z ∉ ddp_numruc <$> previas.
Proof.
  clear row_ok staging_ok py_float.
  induction rows as [|r rows IH]; intros previas; cbn [primeras_desde].
  - split; [constructor|]. intros z Hz. by apply elem_of_nil in Hz.
  - destruct (IH (previas ++ [r])) as [Hnd Hout].
    assert (Hout' : ∀ z,
              z ∈ ddp_numruc <$> primeras_desde (previas ++ [r]) rows →
              (z ∉ ddp_numruc <$> previas) ∧ z ≠ ddp_numruc r).
    { intros z Hz. specialize (Hout z Hz).
      rewrite fmap_app, elem_of_app in Hout. split; [tauto|].
      intros ->. apply Hout. right. by left. }
    case_bool_decide as Hin.
    + split; [done|]. intros z Hz. by apply Hout'.
    + rewrite fmap_cons. split.
      * apply NoDup_cons. split; [|done]. intros Hr. by destruct (Hout' _ Hr).
      * intros z [->|Hz]%elem_of_cons; [done|]. by apply Hout'.
Qed.

(** No two accepted first occurrences share an id. *)
Lemma aceptadas_primeras_NoDup c rows :
  NoDup (ruc <$> aceptadas c (limpiar_fila <$> primeras rows)).
Proof.
  apply (sublist_NoDup _ (ruc <$> (limpiar_fila <$> primeras rows))).
  - rewrite <- list_fmap_compose. apply (primeras_desde_NoDup rows []).
  - apply fmap_sublist, aceptadas_sublist.
Qed.

Lemma aceptadas_Forall c l :
  Forall (λ r, row_ok c r = true) l → aceptadas c l = l ∧ rechazadas c l = [].
Proof.
  intros H. apply aceptadas_todas. apply forallb_forall.
  intros x Hx. rewrite Forall_forall in H. apply H. by apply list_elem_of_In.
Qed.

Lemma migrar_lotes_log c rows :
  ∃ l, (migrar_lotes c rows).2
       = l ++ [LogMigracionCompleta (insertados (migrar_lotes c rows).1)
                 (descartados (migrar_lotes c rows).1)].
Proof. unfold migrar_lotes. cbv zeta. cbn [fst snd]. by eexists. Qed.

(** C2. Batch fallback.  A batch whose bulk insert fails leaves nothing
    of the bulk attempt behind; its rows are then tried one by one from
    the table as it was, each accepted row counted as inserted and each
    refused row as discarded.  Hence a run over N valid rows and one row
    that violates a constraint of the store, wherever that row falls (a
    full batch or the last, partial one), ends with N inserted and 1
    discarded, the N valid rows in the table. *)
Theorem lote_fallback (c : catalogos) (k : tally) (b : list contribuyente)
    (validas1 validas2 : list fila_staging) (mala : fila_staging) :
  (NoDup (ruc <$> (tabla k ++ b)) →
   executemany c (tabla k) b = None →
   insertar_lote c k b
   = Tally (tabla k ++ aceptadas c b)
       (insertados k + length (aceptadas c b))
       (descartados k + length (rechazadas c b)))
  ∧ (NoDup (ddp_numruc <$> (validas1 ++ mala :: validas2)) →
     Forall (λ r, row_ok c (limpiar_fila r) = true) (validas1 ++ validas2) →
     row_ok c (limpiar_fila mala) = false →
     (migrar_lotes c (validas1 ++ mala :: validas2)).1
     = Tally (limpiar_fila <$> (validas1 ++ validas2))
         (length (validas1 ++ validas2)) 1).
Proof.
  split.
  - intros Hnd _. by apply insertar_lote_sin_repetir.
  - intros Hnd Hok Hmala. rewrite migrar_lotes_cerrada.
    unfold primeras, repetidas.
    destruct (primeras_sin_repetir _ [] Hnd) as [-> ->].
    apply Forall_app in Hok as [Hok1 Hok2].
    rewrite fmap_app, fmap_cons, aceptadas_app, rechazadas_app.
    rewrite aceptadas_cons, rechazadas_cons, Hmala.
    destruct (aceptadas_Forall c (limpiar_fila <$> validas1)) as [-> ->];
      [by apply Forall_fmap|].
    destruct (aceptadas_Forall c (limpiar_fila <$> validas2)) as [-> ->];
      [by apply Forall_fmap|].
    rewrite fmap_app. f_equal. by rewrite !length_app, !length_fmap.
Qed.

(** C3. Dedup by business id.  Of the rows of one run the first one with
    a given id is kept (cleaned and offered to the store) and every later
    row with that id is discarded, never inserted, and counted once: the
    table holds the accepted first occurrences, no id twice, and the
    discard count is the number of repetitions plus the number of first
    occurrences the store refused.  Two rows with the same id leave at
    most the first one in the table and add one to the discards,
    whatever their other fields. *)
Theorem dedup_primera_gana (c : catalogos) (rows : list fila_staging)
    (a b : fila_staging) :
  (let k := (migrar_lotes c rows).1 in
   tabla k = aceptadas c (limpiar_fila <$> primeras rows)
   ∧ NoDup (ruc <$> tabla k)
   ∧ insertados k = length (aceptadas c (limpiar_fila <$> primeras rows))
   ∧ descartados k
     = length (repetidas rows)
       + length (rechazadas c (limpiar_fila <$> primeras rows)))
  ∧ (ddp_numruc a = ddp_numruc b →
     (migrar_lotes c [a; b]).1
     = Tally (aceptadas c [limpiar_fila a])
         (length (aceptadas c [limpiar_fila a]))
         (1 + length (rechazadas c [limpiar_fila a]))).
Proof.
  split.
  - cbv zeta. rewrite migrar_lotes_cerrada. proyectar.
    split; [done|]. split; [apply aceptadas_primeras_NoDup|done].
  - intros Hab. rewrite migrar_lotes_cerrada.
    unfold primeras, repetidas. cbn [primeras_desde repetidas_desde].
    rewrite (bool_decide_eq_false_2 (ddp_numruc a ∈ ddp_numruc <$> []))
      by apply not_elem_of_nil.
    rewrite (bool_decide_eq_true_2 (ddp_numruc b ∈ ddp_numruc <$> [] ++ [a]))
      by (rewrite <- Hab; by left).
    done.
Qed.

Lemma insertar_registro_especial_tabla c t :
  (insertar_registro_especial c t).1 = t
  ∨ (insertar_registro_especial c t).1 = t ++ [registro_especial].
Proof.
  unfold insertar_registro_especial, execute.
  case_bool_decide; [by left|]. destruct (insert_ok _ _ _); [by right|by left].
Qed.

Lemma migrar_final_cuenta c rows :
  insertados (migrar_final c rows).1 = insertados (migrar_lotes c rows).1
  ∧ descartados (migrar_final c rows).1 = descartados (migrar_lotes c rows).1
  ∧ tabla (migrar_final c rows).1
    = (insertar_registro_especial c (tabla (migrar_lotes c rows).1)).1
  ∧ ∃ w, (migrar_final c rows).2 = (migrar_lotes c rows).2 ++ w.
Proof.
  unfold migrar_final. destruct (migrar_lotes c rows) as [k log].
  cbn [fst snd].
  destruct (insertar_registro_especial c (tabla k)) as [t w]. cbn.
  split; [done|split; [done|split; [done|by exists w]]].
Qed.

(** C10. Every filtered staging row is accounted for exactly once: the
    inserted count (first occurrences the store accepted) and the
    discarded count (repetitions, and first occurrences the store
    refused) add up to the number of rows processed.  The fixed record
    is in neither count: the table holds [insertados] rows, and after
    them at most that record. *)
Theorem migrar_cuenta_cada_fila (db : base) :
  let rows := filter (λ r, filtro r = true) (TMP_DataOZ_Staging db) in
  let c := cats db in
  let k := (migrar_final c rows).1 in
  insertados k + descartados k = length rows
  ∧ insertados k = length (aceptadas c (limpiar_fila <$> primeras rows))
  ∧ descartados k
    = length (repetidas rows)
      + length (rechazadas c (limpiar_fila <$> primeras rows))
  ∧ ∃ t, length t = insertados k
         ∧ (tabla k = t ∨ tabla k = t ++ [registro_especial]).
Proof.
  cbv zeta. set (rows := filter _ _). set (c := cats db).
  destruct (migrar_final_cuenta c rows) as (-> & -> & -> & _).
  rewrite migrar_lotes_cerrada. proyectar.
  pose proof (aceptadas_rechazadas_length c (limpiar_fila <$> primeras rows)) as H1.
  pose proof (primeras_repetidas_length rows []) as H2.
  fold (primeras rows) (repetidas rows) in H2. rewrite length_fmap in H1.
  repeat split; [lia|].
  exists (aceptadas c (limpiar_fila <$> primeras rows)). split; [done|].
  apply insertar_registro_especial_tabla.
Qed.

(** C5, as the code has it.  The migration engine returns the inserted
    count alone: the value returned is the number of first occurrences
    the store accepted, and the discarded count is written next to it in
    the closing log line, the two adding up to the rows processed. *)
Theorem migrar_devuelve_insertados (db : base) :
  let r := migrar_staging_a_contribuyente db in
  let rows := filter (λ r, filtro r = true) (TMP_DataOZ_Staging db) in
  r.2 = length (aceptadas (cats db) (limpiar_fila <$> primeras rows))
  ∧ ∃ d, LogMigracionCompleta r.2 d ∈ r.1.2 ∧ r.2 + d = length rows.
Proof.
  cbv zeta. unfold migrar_staging_a_contribuyente.
  set (rows := filter _ _). set (c := cats db).
  destruct (migrar_final_cuenta c rows) as (Hi & Hd & _ & w & Hw).
  destruct (migrar_lotes_log c rows) as [l Hl].
  destruct (migrar_final c rows) as [k log]. cbn [fst snd] in *.
  rewrite Hi. rewrite migrar_lotes_cerrada in *. proyectar. split; [done|].
  pose proof (aceptadas_rechazadas_length c (limpiar_fila <$> primeras rows)) as H1.
  pose proof (primeras_repetidas_length rows []) as H2.
  fold (primeras rows) (repetidas rows) in H2. rewrite length_fmap in H1.
  eexists. split.
  - rewrite Hw, Hl. cbn [insertados descartados].
    rewrite elem_of_app. left. rewrite elem_of_app. right. by left.
  - lia.
Qed.

(** ** Catalog resolver *)

Lemma paso_tipo_presentes l : ∀ acc,
  (∀ t, t ∈ l → limpiar_tipo_empresa (Some t) ∈ acc.1) →
  foldl paso_tipo acc l = acc.
Proof.
  induction l as [|t l IH]; intros acc H; [done|]. cbn [foldl].
  assert (Ht : paso_tipo acc t = acc).
  { unfold paso_tipo. rewrite bool_decide_eq_true_2; [done|].
    apply H. by left. }
  rewrite Ht. apply IH. intros t' Ht'. apply H. by right.
Qed.

Lemma paso_tipo_contiene l : ∀ acc,
  acc.1 ⊆ (foldl paso_tipo acc l).1
  ∧ ∀ t, t ∈ l → limpiar_tipo_empresa (Some t) ∈ (foldl paso_tipo acc l).1.
Proof.
  induction l as [|t l IH]; intros acc; cbn [foldl].
  - split; [done|]. intros t Ht. by apply elem_of_nil in Ht.
  - destruct (IH (paso_tipo acc t)) as [H1 H2].
    assert (Hacc : acc.1 ⊆ (paso_tipo acc t).1
                   ∧ limpiar_tipo_empresa (Some t) ∈ (paso_tipo acc t).1).
    { unfold paso_tipo. case_bool_decide; cbn [fst]; [done|].
      split; [apply union_subseteq_r|].
      by apply elem_of_union_l, elem_of_singleton. }
    destruct Hacc as [Ha Ht]. split; [by etrans|].
    intros t' [->|Ht']%elem_of_cons; [|by apply H2].
    by eapply elem_of_weaken.
Qed.

Lemma poblar_catalogos_base db :
  (poblar_catalogos db).1
  = Base (TMP_DataOZ_Staging db)
      (catalogos_resueltos (TMP_DataOZ_Staging db) (cats db))
      (CONTRIBUYENTE db).
Proof.
  unfold poblar_catalogos, catalogos_resueltos. cbv zeta.
  by destruct (foldl paso_tipo _ _).
Qed.


(** ** The orchestrator *)

Lemma migrar_staging_a_contribuyente_base db :
  (migrar_staging_a_contribuyente db).1.1
  = Base (TMP_DataOZ_Staging db) (cats db)
      (tabla (migrar_final (cats db)
                (filter (λ r, filtro r = true) (TMP_DataOZ_Staging db))).1).
Proof.
  unfold migrar_staging_a_contribuyente.
  by destruct (migrar_final _ _).
Qed.



Lemma cargar_csv_a_staging_ok reader db st :
  cargar_final reader = Ok st →
  cargar_csv_a_staging reader db
  = Ok (Base (c_tabla st) (cats db) (CONTRIBUYENTE db),
        c_log st ++ [LogCsvCargado (filas_ok st) (filas_error st)],
        filas_ok st).
Proof. unfold cargar_csv_a_staging. by intros ->. Qed.

Lemma cargar_csv_a_staging_inv reader db r :
  cargar_csv_a_staging reader db = Ok r →
  ∃ st, cargar_final reader = Ok st
        ∧ r.1.1 = Base (c_tabla st) (cats db) (CONTRIBUYENTE db).
Proof.
  unfold cargar_csv_a_staging. destruct (cargar_final reader) as [st|e];
    cbn [res_bind]; [|done].
  intros [= <-]. by exists st.
Qed.

Lemma check_table_has_data_true consulta min_rows :
  (check_table_has_data consulta min_rows).1 = true
  ↔ ∃ count, consulta = Some count ∧ min_rows ≤ count.
Proof.
  unfold check_table_has_data. destruct consulta as [count|]; cbn [fst].
  - rewrite Nat.leb_le. split; [by exists count|]. by intros (? & [= <-] & ?).
  - split; [done|]. by intros (? & ? & ?).
Qed.

(** A run that skips the load stages. *)
Lemma main_sin_carga env reader db :
  conexion_ok env = true →
  conectar env = None →
  (check_table_has_data (contar_contribuyente env db) 100).1 = true →
  etapas (main env reader db) = [EtapaSpark; EtapaResumen]
  ∧ salida (main env reader db)
    = match falla env EtapaResumen with
      | Some e => Excepcion e
      | None => Finalizado db
      end.
Proof.
  intros Hcon Hcx Hchk. unfold main. rewrite Hcon, Hcx. cbn [negb].
  destruct (check_table_has_data _ _) as [hay log1]. cbn [fst] in Hchk.
  subst hay. by cbn [negb terminar salida etapas app].
Qed.

(** A run that enters them calls the staging load first. *)
Lemma main_carga_empieza env reader db :
  conexion_ok env = true →
  conectar env = None →
  (check_table_has_data (contar_contribuyente env db) 100).1 = false →
  ∃ resto, etapas (main env reader db) = EtapaStaging :: resto.
Proof.
  intros Hcon Hcx Hchk. unfold main. rewrite Hcon, Hcx. cbn [negb].
  destruct (check_table_has_data _ _) as [hay log1]. cbn [fst] in Hchk.
  subst hay. cbn [negb].
  destruct (falla env EtapaStaging); [by eexists|].
  destruct (cargar_csv_a_staging reader db) as [[[db1 log2] n]|e];
    [|by eexists].
  destruct (falla env EtapaCatalogos); [by eexists|].
  destruct (poblar_catalogos db1) as [db2 log3].
  destruct (falla env EtapaMigracion); [by eexists|].
  destruct (migrar_staging_a_contribuyente db2) as [[db3 log4] m].
  by eexists.
Qed.

(** A run that performs them, on a server that fails none of their
    statements. *)
Lemma main_con_carga env reader db st :
  conexion_ok env = true →
  conectar env = None →
  (check_table_has_data (contar_contribuyente env db) 100).1 = false →
  falla env EtapaStaging = None →
  falla env EtapaCatalogos = None →
  falla env EtapaMigracion = None →
  cargar_final reader = Ok st →
  etapas (main env reader db)
  = [EtapaStaging; EtapaCatalogos; EtapaMigracion; EtapaSpark; EtapaResumen]
  ∧ salida (main env reader db)
    = match falla env EtapaResumen with
      | Some e => Excepcion e
      | None => Finalizado (tras_carga (c_tabla st) db)
      end.
Proof.
  intros Hcon Hcx Hchk F1 F2 F3 Hst. unfold main.
  rewrite Hcon, Hcx, F1, F2, F3. cbn [negb].
  destruct (check_table_has_data _ _) as [hay log1]. cbn [fst] in Hchk.
  subst hay. cbn [negb]. rewrite (cargar_csv_a_staging_ok _ _ _ Hst).
  unfold tras_carga.
  destruct (poblar_catalogos _) as [db2 log3]. cbn [fst].
  by destruct (migrar_staging_a_contribuyente db2) as [[db3 log4] n].
Qed.

(** How a run that finished got there. *)
Lemma main_finalizado env reader db db1 :
  salida (main env reader db) = Finalizado db1 →
  (db1 = db ∧ 100 ≤ length (CONTRIBUYENTE db)
   ∧ etapas (main env reader db) = [EtapaSpark; EtapaResumen])
  ∨ (∃ st, cargar_final reader = Ok st ∧ db1 = tras_carga (c_tabla st) db
           ∧ etapas (main env reader db)
             = [EtapaStaging; EtapaCatalogos; EtapaMigracion; EtapaSpark;
                EtapaResumen]).
Proof.
  destruct (conexion_ok env) eqn:Hcon;
    [|by unfold main; rewrite Hcon].
  destruct (conectar env) as [e|] eqn:Hcx;
    [by unfold main; rewrite Hcon, Hcx|].
  destruct (check_table_has_data (contar_contribuyente env db) 100).1 eqn:Hchk.
  - destruct (main_sin_carga env reader db Hcon Hcx Hchk) as (He & ->).
    destruct (falla env EtapaResumen); [done|].
    intros [= <-]. left. split; [done|]. split; [|done].
    apply check_table_has_data_true in Hchk as (count & Hc & Hle).
    unfold contar_contribuyente in Hc.
    destruct (consulta_ok env); [|done]. by injection Hc as <-.
  - destruct (falla env EtapaStaging) as [e|] eqn:F1.
    { unfold main. rewrite Hcon, Hcx, F1. cbn [negb].
      destruct (check_table_has_data _ _) as [hay log1]. cbn [fst] in Hchk.
      by subst hay. }
    destruct (cargar_final reader) as [st|e] eqn:Hst.
    2:{ unfold main. rewrite Hcon, Hcx, F1. cbn [negb].
        destruct (check_table_has_data _ _) as [hay log1]. cbn [fst] in Hchk.
        subst hay. cbn [negb]. unfold cargar_csv_a_staging. rewrite Hst.
        by cbn [res_bind salida]. }
    destruct (falla env EtapaCatalogos) as [e|] eqn:F2.
    { unfold main. rewrite Hcon, Hcx, F1, F2. cbn [negb].
      destruct (check_table_has_data _ _) as [hay log1]. cbn [fst] in Hchk.
      subst hay. cbn [negb]. by rewrite (cargar_csv_a_staging_ok _ _ _ Hst). }
    destruct (falla env EtapaMigracion) as [e|] eqn:F3.
    { unfold main. rewrite Hcon, Hcx, F1, F2, F3. cbn [negb].
      destruct (check_table_has_data _ _) as [hay log1]. cbn [fst] in Hchk.
      subst hay. cbn [negb]. rewrite (cargar_csv_a_staging_ok _ _ _ Hst).
      by destruct (poblar_catalogos _) as [db2 log3]. }
    destruct (main_con_carga env reader db st Hcon Hcx Hchk F1 F2 F3 Hst)
      as (He & ->).
    destruct (falla env EtapaResumen); [done|].
    intros [= <-]. right. by exists st.
Qed.

(** C9. Re-entrancy guard.  In a run that obtains its connection, the
    staging load, the catalog population and the migration are skipped,
    the run going to the Spark job and the summary, exactly when the
    count query of the initial check answers and finds at least 100 rows
    in CONTRIBUYENTE; the database is then left as it was.  When the
    count query fails the check answers that there is no data, and the
    load is entered whatever the store holds. *)
Theorem main_salta_carga (env : entorno) (reader : list fila_csv) (db : base) :
  conexion_ok env = true →
  conectar env = None →
  (etapas (main env reader db) = [EtapaSpark; EtapaResumen]
   ↔ consulta_ok env = true ∧ 100 ≤ length (CONTRIBUYENTE db))
  ∧ (consulta_ok env = true →
     100 ≤ length (CONTRIBUYENTE db) →
     falla env EtapaResumen = None →
     salida (main env reader db) = Finalizado db)
  ∧ (consulta_ok env = false →
     ∃ resto, etapas (main env reader db) = EtapaStaging :: resto).
Proof.
  intros Hcon Hcx.
  assert (Hchk : (check_table_has_data (contar_contribuyente env db) 100).1
                 = true
                 ↔ consulta_ok env = true ∧ 100 ≤ length (CONTRIBUYENTE db)).
  { rewrite check_table_has_data_true. unfold contar_contribuyente.
    destruct (consulta_ok env).
    - split; [by intros (count & [= <-] & ?)|]. intros [_ ?]. eauto.
    - split; [by intros (count & ? & ?)|]. by intros [? _]. }
  split; [|split].
  - split.
    + intros He.
      destruct (check_table_has_data (contar_contribuyente env db) 100).1
        eqn:E; [by apply Hchk|].
      destruct (main_carga_empieza env reader db Hcon Hcx E) as [resto Hr].
      by rewrite Hr in He.
    + intros H. apply Hchk in H.
      by destruct (main_sin_carga env reader db Hcon Hcx H) as [-> _].
  - intros Hq Hle F.
    destruct (main_sin_carga env reader db Hcon Hcx) as [_ ->];
      [by apply Hchk|by rewrite F].
  - intros Hq. apply main_carga_empieza; [done|done|].
    apply not_true_is_false. rewrite Hchk, Hq. by intros [? _].
Qed.


(** ** Staging reader *)

Lemma convertir_blanco {A} (conv : pystr → option A) row k raw :
  row !! lit k = Some (Some raw) → strip raw = [] →
  convertir conv row k = Ok None.
Proof.
  intros Hk Hs. unfold convertir, getitem. rewrite Hk. cbn [res_bind].
  by rewrite Hs.
Qed.

Lemma convertir_invalido {A} (conv : pystr → option A) row k raw :
  row !! lit k = Some (Some raw) → strip raw ≠ [] → conv raw = None →
  convertir conv row k = Raise ValueError.
Proof.
  intros Hk Hs Hc. unfold convertir, getitem. rewrite Hk. cbn [res_bind].
  destruct (strip raw); [done|]. cbn [truthy]. by rewrite Hc.
Qed.

(** A row whose ruc is blank or is not an integer never yields a
    staging record. *)
Lemma leer_fila_sin_ruc row raw f :
  row !! lit "ddp_numruc" = Some (Some raw) →
  strip raw = [] ∨ py_int raw = None →
  leer_fila row ≠ Ok (Some f).
Proof.
  intros Hk Hraw. unfold leer_fila.
  destruct (decide (strip raw = [])) as [Hs|Hs].
  - rewrite (convertir_blanco _ _ _ _ Hk Hs). cbn [res_bind].
    destruct (convertir py_int row "dds_edad"); [|done].
    destruct (convertir py_float row "deuda"); [|done].
    by destruct (convertir py_int row "condicion").
  - destruct Hraw as [?|Hi]; [done|].
    by rewrite (convertir_invalido _ _ _ _ Hk Hs Hi).
Qed.

(** A ruc that is not an integer is counted among the ignored rows. *)
Lemma paso_carga_ruc_invalido st row raw :
  row !! lit "ddp_numruc" = Some (Some raw) →
  strip raw ≠ [] → py_int raw = None →
  paso_carga st row
  = Ok (EstadoCarga (c_batch st) (filas_ok st) (filas_error st + 1)
          (c_tabla st) (c_log st)).
Proof.
  intros Hk Hs Hi. unfold paso_carga, leer_fila.
  by rewrite (convertir_invalido _ _ _ _ Hk Hs Hi).
Qed.

(** A blank ruc, the other numbers being well formed, leaves every
    counter as it was. *)
Lemma paso_carga_ruc_blanco st row raw edad deuda condicion :
  row !! lit "ddp_numruc" = Some (Some raw) → strip raw = [] →
  convertir py_int row "dds_edad" = Ok edad →
  convertir py_float row "deuda" = Ok deuda →
  convertir py_int row "condicion" = Ok condicion →
  paso_carga st row = Ok st.
Proof.
  intros Hk Hs He Hd Hc. unfold paso_carga, leer_fila.
  rewrite (convertir_blanco _ _ _ _ Hk Hs), He, Hd, Hc. done.
Qed.


(** * Further properties of the code *)

(** ** [strip] and [upper] *)

Lemma lstrip_sin_espacio s : sin_espacio_inicial (lstrip s).
Proof.
  induction s as [|c s IH]; [done|]. cbn [lstrip].
  by destruct (is_space c) eqn:E.
Qed.

Lemma lstrip_fijo s : sin_espacio_inicial s → lstrip s = s.
Proof. destruct s as [|c s]; [done|]. cbn. by intros ->. Qed.

Lemma lstrip_sufijo s : ∃ p, s = p ++ lstrip s.
Proof.
  induction s as [|c s [p IH]]; [by exists []|]. cbn [lstrip].
  destruct (is_space c); [|by exists []].
  exists (c :: p). cbn. by rewrite <- IH.
Qed.

Lemma strip_recortada s : recortada (strip s).
Proof.
  unfold strip, rstrip. split.
  - destruct (lstrip_sufijo (rev (lstrip s))) as [p Hp].
    pose proof (lstrip_sin_espacio s) as Hs.
    apply (f_equal (@rev N)) in Hp. rewrite rev_involutive, rev_app_distr in Hp.
    destruct (rev (lstrip (rev (lstrip s)))) as [|c r]; [done|].
    rewrite Hp in Hs. exact Hs.
  - rewrite rev_involutive. apply lstrip_sin_espacio.
Qed.

Lemma strip_fijo s : recortada s → strip s = s.
Proof.
  intros [H1 H2]. unfold strip, rstrip.
  by rewrite (lstrip_fijo s H1), (lstrip_fijo _ H2), rev_involutive.
Qed.

(** Trimming twice is trimming once. *)
Lemma strip_strip s : strip (strip s) = strip s.
Proof. apply strip_fijo, strip_recortada. Qed.

Lemma is_space_true c :
  is_space c = true
  ↔ (c ∈ [9; 10; 11; 12; 13; 28; 29; 30; 31; 32; 133; 160; 5760; 8232;
          8233; 8239; 8287; 12288]%N ∨ (8192 ≤ c ∧ c ≤ 8202)%N).
Proof.
  unfold is_space. rewrite orb_true_iff, andb_true_iff, bool_decide_eq_true.
  by rewrite !N.leb_le.
Qed.

Lemma is_space_false c :
  is_space c = false
  ↔ (c ∉ [9; 10; 11; 12; 13; 28; 29; 30; 31; 32; 133; 160; 5760; 8232;
          8233; 8239; 8287; 12288]%N ∧ ¬ (8192 ≤ c ∧ c ≤ 8202)%N).
Proof.
  rewrite <- not_true_iff_false, is_space_true. tauto.
Qed.

Lemma upper_cp_sin_espacio c :
  is_space c = false →
  ∃ c' r, upper_cp c = c' :: r ∧ is_space c' = false
          ∧ sin_espacio_inicial (rev (upper_cp c)).
Proof.
  intros Hc. abrir_cp;
    (eexists _, _; split; [reflexivity|]; cbn [rev app sin_espacio_inicial];
     split; try done; try fuera_de_lista is_space_false).
Qed.

Lemma upper_cp_fijo c : upper (upper_cp c) = upper_cp c.
Proof.
  abrir_cp; unfold upper; cbn [map concat app]; try reflexivity;
    try (subst; reflexivity);
    abrir_cp; try reflexivity; lia.
Qed.

Lemma upper_app a b : upper (a ++ b) = upper a ++ upper b.
Proof. unfold upper. by rewrite map_app, concat_app. Qed.

(** Upper-casing twice is upper-casing once. *)
Lemma upper_upper s : upper (upper s) = upper s.
Proof.
  induction s as [|c s IH]; [done|].
  change (upper (c :: s)) with (upper_cp c ++ upper s).
  by rewrite upper_app, upper_cp_fijo, IH.
Qed.

Lemma upper_sin_espacio s :
  sin_espacio_inicial s → sin_espacio_inicial (upper s).
Proof.
  destruct s as [|c s]; [done|]. cbn [sin_espacio_inicial]. intros Hc.
  change (upper (c :: s)) with (upper_cp c ++ upper s).
  destruct (upper_cp_sin_espacio c Hc) as (c' & r & -> & Hc' & _). done.
Qed.

Lemma upper_recortada s : recortada s → recortada (upper s).
Proof.
  intros [H1 H2]. split; [by apply upper_sin_espacio|].
  destruct (rev s) as [|c r] eqn:E.
  - apply (f_equal (@rev N)) in E. rewrite rev_involutive in E. by subst.
  - apply (f_equal (@rev N)) in E. rewrite rev_involutive in E. subst s.
    cbn [rev]. rewrite upper_app, rev_app_distr.
    change (upper [c]) with (upper_cp c ++ []). rewrite app_nil_r.
    cbn [sin_espacio_inicial] in H2.
    destruct (upper_cp_sin_espacio c H2) as (c' & r' & E' & _ & Hrev).
    destruct (rev (upper_cp c)) as [|x y] eqn:Ex; [|done].
    apply (f_equal (@rev N)) in Ex. rewrite rev_involutive in Ex.
    by rewrite E' in Ex.
Qed.

(** A trimmed, upper-cased string is left alone by trimming and
    upper-casing. *)
Lemma upper_strip_fijo s :
  upper (strip (upper (strip s))) = upper (strip s).
Proof.
  rewrite (strip_fijo (upper (strip s))); [apply upper_upper|].
  apply upper_recortada, strip_recortada.
Qed.

(** ** Field normalizers, once more *)

Lemma limpiar_estado_codigo valor : limpiar_estado valor ∈ codigos_estado.
Proof. normalizador; unfold codigos_estado; en_lista. Qed.

Lemma limpiar_condicion_codigo valor :
  limpiar_condicion valor ∈ codigos_condicion.
Proof. normalizador; unfold codigos_condicion; en_lista. Qed.

Lemma limpiar_tipo_empresa_codigo valor :
  limpiar_tipo_empresa valor ∈ codigos_tipo_empresa.
Proof. normalizador; unfold codigos_tipo_empresa; en_lista. Qed.

Lemma limpiar_sexo_codigo valor : limpiar_sexo valor ∈ codigos_sexo.
Proof. normalizador; unfold codigos_sexo; en_lista. Qed.

Lemma limpiar_tamano_codigo valor : limpiar_tamano valor ∈ codigos_tamano.
Proof. normalizador; unfold codigos_tamano; en_lista. Qed.

(** X2. Normalizing is idempotent: each of the five normalizers leaves
    its own results alone, so cleaning a value that was already cleaned
    changes nothing. *)
Theorem limpiar_idempotente (valor : option pystr) :
  limpiar_estado (Some (limpiar_estado valor)) = limpiar_estado valor
  ∧ limpiar_condicion (Some (limpiar_condicion valor))
    = limpiar_condicion valor
  ∧ limpiar_tipo_empresa (Some (limpiar_tipo_empresa valor))
    = limpiar_tipo_empresa valor
  ∧ limpiar_sexo (Some (limpiar_sexo valor)) = limpiar_sexo valor
  ∧ limpiar_tamano (Some (limpiar_tamano valor)) = limpiar_tamano valor.
Proof.
  repeat split.
  - pose proof (limpiar_estado_codigo valor) as H.
    revert H. generalize (limpiar_estado valor). unfold codigos_estado.
    intros y H. cada_codigo.
  - pose proof (limpiar_condicion_codigo valor) as H.
    revert H. generalize (limpiar_condicion valor). unfold codigos_condicion.
    intros y H. cada_codigo.
  - pose proof (limpiar_tipo_empresa_codigo valor) as H.
    revert H. generalize (limpiar_tipo_empresa valor).
    unfold codigos_tipo_empresa. intros y H. cada_codigo.
  - pose proof (limpiar_sexo_codigo valor) as H.
    revert H. generalize (limpiar_sexo valor). unfold codigos_sexo.
    intros y H. cada_codigo.
  - pose proof (limpiar_tamano_codigo valor) as H.
    revert H. generalize (limpiar_tamano valor). unfold codigos_tamano.
    intros y H. cada_codigo.
Qed.

(** X3. The normalizers ignore letter case and surrounding white space:
    a value and its trimmed, upper-cased form are cleaned to the same
    code, by each of the five normalizers. *)
Theorem limpiar_insensible (s : pystr) :
  limpiar_estado (Some (upper (strip s))) = limpiar_estado (Some s)
  ∧ limpiar_condicion (Some (upper (strip s))) = limpiar_condicion (Some s)
  ∧ limpiar_tipo_empresa (Some (upper (strip s)))
    = limpiar_tipo_empresa (Some s)
  ∧ limpiar_sexo (Some (upper (strip s))) = limpiar_sexo (Some s)
  ∧ limpiar_tamano (Some (upper (strip s))) = limpiar_tamano (Some s).
Proof.
  repeat split; revert s.
  - insensible limpiar_estado upper_strip_fijo.
  - insensible limpiar_condicion upper_strip_fijo.
  - insensible limpiar_tipo_empresa upper_strip_fijo.
  - insensible limpiar_sexo upper_strip_fijo.
  - insensible limpiar_tamano upper_strip_fijo.
Qed.

(** ** Staging reader, once more *)

Lemma insertar_staging_ok t b t' :
  insertar_staging t b = Ok t' →
  t' = t ++ b ∧ Forall (λ f, staging_ok f = true) b.
Proof.
  unfold insertar_staging. destruct (forallb staging_ok b) eqn:E; [|done].
  intros [= <-]. split; [done|].
  apply Forall_forall. intros f Hf.
  rewrite forallb_forall in E. by apply E, list_elem_of_In.
Qed.


(** What one turn of the loop does to the state, when it does not
    raise. *)
Lemma paso_carga_ok st row st' :
  paso_carga st row = Ok st' →
  fila_fatal row = false
  ∧ c_tabla st' ++ c_batch st'
    = c_tabla st ++ c_batch st ++ filas_aceptadas [row]
  ∧ filas_ok st' + length (c_tabla st) = filas_ok st + length (c_tabla st')
  ∧ filas_error st'
    = filas_error st + length (filter (λ r, fila_con_error r = true) [row])
  ∧ ∃ nuevas, c_tabla st' = c_tabla st ++ nuevas
              ∧ Forall (λ f, staging_ok f = true) nuevas.
Proof.
  unfold paso_carga, fila_fatal, fila_con_error.
  rewrite filter_cons, filter_nil. cbn [filas_aceptadas].
  destruct (leer_fila row) as [[f|]|[]]; try done.
  - destruct (BATCH_SIZE <=? length (c_batch st ++ [f])).
    + destruct (insertar_staging _ _) as [t|e] eqn:E; [|done].
      proyectar_carga. intros [= <-]. proyectar_carga.
      apply insertar_staging_ok in E as [-> Hok].
      case_decide; [done|]. rewrite !length_app, !app_nil_r. cbn [length].
      split; [done|]. split; [by rewrite app_assoc|].
      split; [lia|]. split; [lia|]. by eexists.
    + intros [= <-]. proyectar_carga. case_decide; [done|].
      rewrite app_assoc. cbn [length].
      repeat split; try lia. exists []. by rewrite app_nil_r.
  - intros [= <-]. case_decide; [done|]. rewrite !app_nil_r. cbn [length].
    repeat split; try lia. exists []. by rewrite app_nil_r.
  - intros [= <-]. proyectar_carga. case_decide; [|done].
    rewrite !app_nil_r. cbn [length].
    repeat split; try lia. exists []. by rewrite app_nil_r.
  - intros [= <-]. proyectar_carga. case_decide; [|done].
    rewrite !app_nil_r. cbn [length].
    repeat split; try lia. exists []. by rewrite app_nil_r.
Qed.

Lemma filas_aceptadas_cons row reader :
  filas_aceptadas (row :: reader)
  = filas_aceptadas [row] ++ filas_aceptadas reader.
Proof. cbn [filas_aceptadas]. by destruct (leer_fila row) as [[f|]|]. Qed.

Lemma leer_filas_ok reader : ∀ st st',
  leer_filas st reader = Ok st' →
  Forall (λ row, fila_fatal row = false) reader
  ∧ c_tabla st' ++ c_batch st'
    = c_tabla st ++ c_batch st ++ filas_aceptadas reader
  ∧ filas_ok st' + length (c_tabla st) = filas_ok st + length (c_tabla st')
  ∧ filas_error st'
    = filas_error st + length (filter (λ r, fila_con_error r = true) reader)
  ∧ ∃ nuevas, c_tabla st' = c_tabla st ++ nuevas
              ∧ Forall (λ f, staging_ok f = true) nuevas.
Proof.
  induction reader as [|row reader IH]; intros st st'; cbn [leer_filas].
  - intros [= <-]. rewrite filter_nil, !app_nil_r. cbn [length].
    repeat split; try done; try lia. exists []. by rewrite app_nil_r.
  - destruct (paso_carga st row) as [st1|e] eqn:E; [|done]. proyectar_carga.
    intros H. apply IH in H as (Hf & Ht & Hok & Herr & n2 & Hn2 & Hs2).
    apply paso_carga_ok in E as (Hf1 & Ht1 & Hok1 & Herr1 & n1 & Hn1 & Hs1).
    rewrite filas_aceptadas_cons, filter_cons.
    rewrite filter_cons, filter_nil in Herr1.
    split; [by constructor|].
    split; [by rewrite Ht, app_assoc, Ht1, <- !app_assoc|].
    split; [lia|]. split.
    + rewrite Herr, Herr1. case_decide; cbn [length]; lia.
    + exists (n1 ++ n2). split; [by rewrite Hn2, Hn1, app_assoc|].
      by apply Forall_app.
Qed.

(** The state at the closing log line of a load that did not raise. *)
Lemma cargar_final_ok reader st :
  cargar_final reader = Ok st →
  Forall (λ row, fila_fatal row = false) reader
  ∧ c_tabla st = filas_aceptadas reader
  ∧ Forall (λ f, staging_ok f = true) (c_tabla st)
  ∧ filas_ok st = length (filas_aceptadas reader)
  ∧ filas_error st = length (filter (λ r, fila_con_error r = true) reader).
Proof.
  unfold cargar_final.
  destruct (leer_filas (EstadoCarga [] 0 0 [] []) reader) as [st1|e] eqn:E;
    [|done].
  apply leer_filas_ok in E as (Hf & Ht & Hok & Herr & n1 & Hn1 & Hs1).
  proyectar_carga. revert Ht Hok Herr Hn1. proyectar_carga.
  cbn [app length]. intros Ht Hok Herr Hn1.
  destruct (c_batch st1) as [|f b] eqn:Eb.
  - intros [= <-]. rewrite app_nil_r in Ht. rewrite <- Ht.
    split; [done|]. split; [done|]. split; [by rewrite Hn1|].
    split; [lia|done].
  - destruct (insertar_staging _ _) as [t|e] eqn:Ei; [|done]. proyectar_carga.
    intros [= <-]. proyectar_carga.
    apply insertar_staging_ok in Ei as [-> Hb].
    rewrite <- Ht. split; [done|]. split; [done|].
    split; [apply Forall_app; by rewrite Hn1|].
    rewrite length_app. cbn [length]. split; [lia|lia].
Qed.


(** X4. A load that does not raise replaces the staging table by the
    records of the rows that have a ruc and convert, in the order of the
    extract, whatever the size of the batches; it returns their number,
    reports as ignored exactly the rows whose conversions raised
    ValueError or KeyError, and touches no other table. *)
Theorem cargar_csv_a_staging_contenido (reader : list fila_csv)
    (db db' : base) (log : list log_event) (n : nat) :
  cargar_csv_a_staging reader db = Ok (db', log, n) →
  TMP_DataOZ_Staging db' = filas_aceptadas reader
  ∧ cats db' = cats db
  ∧ CONTRIBUYENTE db' = CONTRIBUYENTE db
  ∧ n = length (filas_aceptadas reader)
  ∧ last log
    = Some (LogCsvCargado n
              (length (filter (λ r, fila_con_error r = true) reader))).
Proof.
  unfold cargar_csv_a_staging.
  destruct (cargar_final reader) as [st|e] eqn:E; [|done]. proyectar_carga.
  apply cargar_final_ok in E as (_ & Ht & _ & Hok & Herr).
  intros [= <- <- <-]. cbn [TMP_DataOZ_Staging cats CONTRIBUYENTE].
  by rewrite last_snoc, Hok, Herr.
Qed.


Lemma texto_texto_limpio row k v : texto row k = Ok v → texto_limpio v.
Proof.
  unfold texto, getitem. destruct (row !! lit k) as [[raw|]|]; try done.
  cbn [res_bind]. intros [= <-].
  pose proof (strip_recortada raw) as Hr.
  by destruct (strip raw).
Qed.

Lemma convertir_Some {A} (conv : pystr → option A) row k x :
  convertir conv row k = Ok (Some x) →
  ∃ raw, row !! lit k = Some (Some raw) ∧ conv raw = Some x.
Proof.
  unfold convertir, getitem. destruct (row !! lit k) as [[raw|]|]; try done.
  cbn [res_bind]. destruct (truthy _); [|done].
  destruct (conv raw) eqn:E; [|done]. intros [= <-]. by exists raw.
Qed.

(** What a staging record is, given the row it was read from. *)
Lemma leer_fila_campos row f :
  leer_fila row = Ok (Some f) →
  (∃ raw, row !! lit "ddp_numruc" = Some (Some raw)
          ∧ py_int raw = Some (ddp_numruc f))
  ∧ texto_limpio (ddp_ciiu f) ∧ texto_limpio (ddp_tpoemp f)
  ∧ texto_limpio (ddp_tamano f) ∧ texto_limpio (ddp_ubigeo f)
  ∧ texto_limpio (ddp_estado f) ∧ texto_limpio (ddp_flag22 f)
  ∧ texto_limpio (dds_sexo f) ∧ deuda f ≠ None.
Proof.
  unfold leer_fila.
  destruct (convertir py_int row "ddp_numruc") as [ruc|] eqn:Eruc; [|done].
  cbn [res_bind].
  destruct (convertir py_int row "dds_edad") as [edad|]; [|done].
  cbn [res_bind].
  destruct (convertir py_float row "deuda") as [deu|]; [|done].
  cbn [res_bind].
  destruct (convertir py_int row "condicion") as [cond|]; [|done].
  cbn [res_bind]. destruct ruc as [ruc|]; [|done].
  apply convertir_Some in Eruc.
  destruct (texto row "ddp_ciiu") as [v1|] eqn:E1; [|done]. cbn [res_bind].
  destruct (texto row "ddp_tpoemp") as [v2|] eqn:E2; [|done]. cbn [res_bind].
  destruct (texto row "ddp_tamano") as [v3|] eqn:E3; [|done]. cbn [res_bind].
  destruct (texto row "ddp_ubigeo") as [v4|] eqn:E4; [|done]. cbn [res_bind].
  destruct (texto row "ddp_estado") as [v5|] eqn:E5; [|done]. cbn [res_bind].
  destruct (texto row "ddp_flag22") as [v6|] eqn:E6; [|done]. cbn [res_bind].
  destruct (texto row "dds_sexo") as [v7|] eqn:E7; [|done]. cbn [res_bind].
  intros [= <-].
  cbn [ddp_numruc ddp_ciiu ddp_tpoemp ddp_tamano ddp_ubigeo ddp_estado
       ddp_flag22 dds_sexo deuda].
  repeat split; try done; by eapply texto_texto_limpio.
Qed.

Lemma filas_aceptadas_origen reader f :
  f ∈ filas_aceptadas reader →
  ∃ row, row ∈ reader ∧ leer_fila row = Ok (Some f).
Proof.
  induction reader as [|row reader IH]; cbn [filas_aceptadas].
  - intros H. by apply elem_of_nil in H.
  - destruct (leer_fila row) as [[f'|]|] eqn:E.
    + intros [->|H]%elem_of_cons.
      * exists row. split; [by left|done].
      * destruct (IH H) as (r & ? & ?). exists r. split; [by right|done].
    + intros H. destruct (IH H) as (r & ? & ?). exists r.
      split; [by right|done].
    + intros H. destruct (IH H) as (r & ? & ?). exists r.
      split; [by right|done].
Qed.

(** X6. After a load every text column of every staging row is NULL or
    a string that is not empty and has no white space around it (a blank
    field becomes NULL, never the empty string), the debt is never NULL,
    the ruc is the integer its field spells, and the store accepted the
    row. *)
Theorem cargar_csv_a_staging_campos (reader : list fila_csv) (db db' : base)
    (log : list log_event) (n : nat) :
  cargar_csv_a_staging reader db = Ok (db', log, n) →
  Forall
    (λ f, (∃ row raw, row ∈ reader
                      ∧ row !! lit "ddp_numruc" = Some (Some raw)
                      ∧ py_int raw = Some (ddp_numruc f))
          ∧ texto_limpio (ddp_ciiu f) ∧ texto_limpio (ddp_tpoemp f)
          ∧ texto_limpio (ddp_tamano f) ∧ texto_limpio (ddp_ubigeo f)
          ∧ texto_limpio (ddp_estado f) ∧ texto_limpio (ddp_flag22 f)
          ∧ texto_limpio (dds_sexo f) ∧ deuda f ≠ None
          ∧ staging_ok f = true)
    (TMP_DataOZ_Staging db').
Proof.
  intros H. apply cargar_csv_a_staging_inv in H as (st & Hst & Hdb).
  cbn [fst] in Hdb. subst db'. cbn [TMP_DataOZ_Staging].
  apply cargar_final_ok in Hst as (_ & Ht & Hs & _).
  apply Forall_forall. intros f Hf.
  rewrite Forall_forall in Hs. specialize (Hs f Hf).
  rewrite Ht in Hf. apply filas_aceptadas_origen in Hf as (row & Hrow & E).
  apply leer_fila_campos in E as ((raw & Hraw & Hint) & Hrest).
  split; [by exists row, raw|].
  destruct Hrest as (?&?&?&?&?&?&?&?). done.
Qed.

Lemma leer_filas_sin_columna reader : ∀ st,
  Forall (λ row : fila_csv, row !! lit "ddp_numruc" = None) reader →
  leer_filas st reader
  = Ok (EstadoCarga (c_batch st) (filas_ok st)
          (filas_error st + length reader) (c_tabla st) (c_log st)).
Proof.
  induction reader as [|row reader IH]; intros st H; cbn [leer_filas length].
  - destruct st. proyectar_carga. by rewrite Nat.add_0_r.
  - apply Forall_cons in H as [Hrow H].
    unfold paso_carga, leer_fila, convertir at 1, getitem. rewrite Hrow.
    proyectar_carga. rewrite (IH _ H). proyectar_carga. do 2 f_equal. lia.
Qed.

(** X7. An extract without the ruc column does not stop the load: every
    row raises KeyError, which the loop catches, so nothing is staged, the
    staging table is left empty and every row is reported as ignored. *)
Theorem cargar_csv_a_staging_sin_columna (reader : list fila_csv) (db : base) :
  Forall (λ row : fila_csv, row !! lit "ddp_numruc" = None) reader →
  cargar_csv_a_staging reader db
  = Ok (Base [] (cats db) (CONTRIBUYENTE db),
        [LogCsvCargado 0 (length reader)], 0).
Proof.
  intros H. unfold cargar_csv_a_staging, cargar_final.
  rewrite (leer_filas_sin_columna reader _ H). by proyectar_carga.
Qed.

Lemma convertir_Ok {A} (conv : pystr → option A) row k v :
  convertir conv row k = Ok v →
  ∃ raw, row !! lit k = Some (Some raw)
         ∧ ((strip raw = [] ∧ v = None)
            ∨ (strip raw ≠ [] ∧ conv raw = v ∧ v ≠ None)).
Proof.
  unfold convertir, getitem. destruct (row !! lit k) as [[raw|]|]; try done.
  cbn [res_bind]. destruct (strip raw) as [|c r] eqn:E; cbn [truthy].
  - intros [= <-]. exists raw. split; [done|]. by left.
  - destruct (conv raw) as [x|] eqn:Ec; [|done]. intros [= <-].
    exists raw. split; [done|]. right. by rewrite E.
Qed.

(** X22. The numeric fields of a staged row: a blank age becomes NULL,
    a blank debt 0.0 and a blank condition 0; a field that is not blank
    holds what [int()] or [float()] makes of it, so a row enters staging
    only when its age, its debt and its condition all convert. *)
Theorem leer_fila_conversiones (row : fila_csv) (f : fila_staging) :
  leer_fila row = Ok (Some f) →
  (∃ raw, row !! lit "dds_edad" = Some (Some raw)
          ∧ ((strip raw = [] ∧ dds_edad f = None)
             ∨ (strip raw ≠ [] ∧ py_int raw = dds_edad f
                ∧ dds_edad f ≠ None)))
  ∧ (∃ raw, row !! lit "deuda" = Some (Some raw)
            ∧ ((strip raw = [] ∧ deuda f = Some 0%float)
               ∨ (strip raw ≠ [] ∧ py_float raw = deuda f)))
  ∧ (∃ raw, row !! lit "condicion" = Some (Some raw)
            ∧ ((strip raw = [] ∧ condicion f = 0%Z)
               ∨ (strip raw ≠ [] ∧ py_int raw = Some (condicion f)))).
Proof.
  unfold leer_fila.
  destruct (convertir py_int row "ddp_numruc") as [ruc|]; [|done].
  cbn [res_bind].
  destruct (convertir py_int row "dds_edad") as [eda|] eqn:Ee; [|done].
  cbn [res_bind].
  destruct (convertir py_float row "deuda") as [deu|] eqn:Ed; [|done].
  cbn [res_bind].
  destruct (convertir py_int row "condicion") as [cond|] eqn:Ec; [|done].
  cbn [res_bind]. destruct ruc as [ruc|]; [|done].
  destruct (texto row "ddp_ciiu") as [v1|]; [|done]. cbn [res_bind].
  destruct (texto row "ddp_tpoemp") as [v2|]; [|done]. cbn [res_bind].
  destruct (texto row "ddp_tamano") as [v3|]; [|done]. cbn [res_bind].
  destruct (texto row "ddp_ubigeo") as [v4|]; [|done]. cbn [res_bind].
  destruct (texto row "ddp_estado") as [v5|]; [|done]. cbn [res_bind].
  destruct (texto row "ddp_flag22") as [v6|]; [|done]. cbn [res_bind].
  destruct (texto row "dds_sexo") as [v7|]; [|done]. cbn [res_bind].
  intros [= <-]. cbn [dds_edad deuda condicion].
  apply convertir_Ok in Ee as (re & He & Hre).
  apply convertir_Ok in Ed as (rd & Hd & Hrd).
  apply convertir_Ok in Ec as (rc & Hc & Hrc).
  split; [exists re; split; [done|exact Hre]|].
  split.
  - exists rd. split; [done|].
    destruct Hrd as [[? ->]|(? & Hx & Hn)]; [by left|right].
    split; [done|]. by destruct deu.
  - exists rc. split; [done|].
    destruct Hrc as [[? ->]|(? & Hx & Hn)]; [by left|right].
    split; [done|]. by destruct cond.
Qed.

(** ** Catalog resolver, once more *)

Lemma paso_tipo_acotado l : ∀ acc,
  (foldl paso_tipo acc l).1 ⊆ acc.1 ∪ list_to_set codigos_tipo_empresa.
Proof.
  induction l as [|t l IH]; intros acc; cbn [foldl].
  - apply union_subseteq_l.
  - etrans; [apply IH|]. unfold paso_tipo. case_bool_decide; cbn [fst]; [done|].
    pose proof (limpiar_tipo_empresa_codigo (Some t)) as Ht.
    apply union_least; [|apply union_subseteq_r].
    apply union_least; [|apply union_subseteq_l].
    apply singleton_subseteq_l, elem_of_union_r. by apply elem_of_list_to_set.
Qed.

Lemma union_resta (A S : gset pystr) : A ∪ S ∖ A = A ∪ S.
Proof.
  clear row_ok staging_ok py_float.
  apply set_eq. intros x. rewrite !elem_of_union, elem_of_difference.
  destruct (decide (x ∈ A)); tauto.
Qed.

Lemma staging_en_catalogos db f :
  f ∈ TMP_DataOZ_Staging db →
  (∀ x, ddp_ciiu f = Some x →
        x ∈ ACTIVIDAD_ECONOMICA (cats (poblar_catalogos db).1))
  ∧ (∀ x, ddp_ubigeo f = Some x →
          x ∈ UBICACION_GEOGRAFICA (cats (poblar_catalogos db).1))
  ∧ (∀ x, ddp_tpoemp f = Some x →
          limpiar_tipo_empresa (Some x)
          ∈ TIPO_EMPRESA (cats (poblar_catalogos db).1)).
Proof.
  intros Hf. rewrite poblar_catalogos_base. unfold catalogos_resueltos.
  cbn [cats ACTIVIDAD_ECONOMICA UBICACION_GEOGRAFICA TIPO_EMPRESA].
  rewrite !union_resta. repeat split; intros x Hx.
  - apply elem_of_union_r, elem_of_list_to_set, list_elem_of_omap. by exists f.
  - apply elem_of_union_r, elem_of_list_to_set, list_elem_of_omap. by exists f.
  - apply paso_tipo_contiene, elem_of_remove_dups, list_elem_of_omap.
    by exists f.
Qed.

(** X8. Referential completeness: once [poblar_catalogos] has run, every
    activity code and every location present in the staging table has
    its catalog row, and so has the cleaned form of every company type
    present there. *)
Theorem poblar_catalogos_completo (db : base) :
  Forall
    (λ f, (∀ x, ddp_ciiu f = Some x →
                x ∈ ACTIVIDAD_ECONOMICA (cats (poblar_catalogos db).1))
          ∧ (∀ x, ddp_ubigeo f = Some x →
                  x ∈ UBICACION_GEOGRAFICA (cats (poblar_catalogos db).1))
          ∧ (∀ x, ddp_tpoemp f = Some x →
                  limpiar_tipo_empresa (Some x)
                  ∈ TIPO_EMPRESA (cats (poblar_catalogos db).1)))
    (TMP_DataOZ_Staging db).
Proof. apply Forall_forall. intros f Hf. by apply staging_en_catalogos. Qed.

(** X9. The resolver only adds: the activity and location catalogs
    become what they were plus the codes present in staging, the
    company-type catalog keeps its rows and gains none outside the seven
    codes of the normalizer, and staging and CONTRIBUYENTE are left as
    they were.  With the seven codes already in the catalog, it stays as
    it is. *)
Theorem poblar_catalogos_crece (db : base) :
  let db' := (poblar_catalogos db).1 in
  ACTIVIDAD_ECONOMICA (cats db')
  = ACTIVIDAD_ECONOMICA (cats db)
    ∪ list_to_set (omap ddp_ciiu (TMP_DataOZ_Staging db))
  ∧ UBICACION_GEOGRAFICA (cats db')
    = UBICACION_GEOGRAFICA (cats db)
      ∪ list_to_set (omap ddp_ubigeo (TMP_DataOZ_Staging db))
  ∧ TIPO_EMPRESA (cats db) ⊆ TIPO_EMPRESA (cats db')
  ∧ TIPO_EMPRESA (cats db')
    ⊆ TIPO_EMPRESA (cats db) ∪ list_to_set codigos_tipo_empresa
  ∧ TMP_DataOZ_Staging db' = TMP_DataOZ_Staging db
  ∧ CONTRIBUYENTE db' = CONTRIBUYENTE db
  ∧ (list_to_set codigos_tipo_empresa ⊆ TIPO_EMPRESA (cats db) →
     TIPO_EMPRESA (cats db') = TIPO_EMPRESA (cats db)).
Proof.
  cbv zeta. rewrite poblar_catalogos_base. unfold catalogos_resueltos.
  cbn [cats ACTIVIDAD_ECONOMICA UBICACION_GEOGRAFICA TIPO_EMPRESA
       TMP_DataOZ_Staging CONTRIBUYENTE].
  rewrite !union_resta.
  pose proof (paso_tipo_contiene
                (remove_dups (omap ddp_tpoemp (TMP_DataOZ_Staging db)))
                (TIPO_EMPRESA (cats db), 0)) as [Hsub _].
  pose proof (paso_tipo_acotado
                (remove_dups (omap ddp_tpoemp (TMP_DataOZ_Staging db)))
                (TIPO_EMPRESA (cats db), 0)) as Hcota.
  cbn [fst] in Hsub, Hcota.
  repeat split; try done.
  intros Hseed. apply set_eq. intros x. split; [|apply Hsub].
  intros Hx. apply Hcota, elem_of_union in Hx as [Hx|Hx]; [done|].
  by apply Hseed.
Qed.

(** X10. Resolving the catalogs again from the same staging rows
    inserts nothing: the database is left as the first pass left it and
    the two counts logged are zero, with no line for company types. *)
Theorem poblar_catalogos_dos_veces (db : base) :
  poblar_catalogos (poblar_catalogos db).1
  = ((poblar_catalogos db).1,
     [LogCiiusInsertados 0; LogUbicacionesInsertadas 0]).
Proof.
  clear row_ok staging_ok py_float.
  rewrite poblar_catalogos_base.
  set (st := TMP_DataOZ_Staging db).
  set (c' := catalogos_resueltos st (cats db)).
  unfold poblar_catalogos. cbv zeta.
  cbn [TMP_DataOZ_Staging cats CONTRIBUYENTE]. fold st.
  assert (HA : list_to_set (omap ddp_ciiu st) ∖ ACTIVIDAD_ECONOMICA c'
               = (∅ : gset pystr)).
  { unfold c', catalogos_resueltos. cbn [ACTIVIDAD_ECONOMICA].
    rewrite union_resta. apply set_eq. intros x.
    rewrite elem_of_difference, elem_of_union, elem_of_empty. tauto. }
  assert (HU : list_to_set (omap ddp_ubigeo st) ∖ UBICACION_GEOGRAFICA c'
               = (∅ : gset pystr)).
  { unfold c', catalogos_resueltos. cbn [UBICACION_GEOGRAFICA].
    rewrite union_resta. apply set_eq. intros x.
    rewrite elem_of_difference, elem_of_union, elem_of_empty. tauto. }
  rewrite HA, HU, !(right_id_L ∅ (∪)), size_empty.
  rewrite (paso_tipo_presentes (remove_dups (omap ddp_tpoemp st))
             (TIPO_EMPRESA c', 0)).
  - cbn [Nat.eqb app]. by destruct c'.
  - cbn [fst]. unfold c', catalogos_resueltos. cbn [TIPO_EMPRESA].
    apply paso_tipo_contiene.
Qed.

(** ** Migration engine, once more *)

Lemma executemany_Some c b : ∀ t t',
  executemany c t b = Some t' → t' = t ++ b.
Proof.
  induction b as [|r b IH]; intros t t'; cbn [executemany].
  - intros [= <-]. by rewrite app_nil_r.
  - unfold execute. destruct (insert_ok c t r); [|done].
    intros H. apply IH in H as ->. by rewrite <- app_assoc.
Qed.

Lemma uno_a_uno_paso c k r :
  let k' := uno_a_uno c k r in
  insertados k' + descartados k' = insertados k + descartados k + 1
  ∧ tabla k `prefix_of` tabla k'
  ∧ length (tabla k') + insertados k = length (tabla k) + insertados k'
  ∧ descartados k ≤ descartados k'.
Proof.
  cbv zeta. unfold uno_a_uno, execute.
  destruct (insert_ok c (tabla k) r); proyectar.
  - rewrite length_app. cbn [length].
    repeat split; try lia. by apply prefix_app_r.
  - repeat split; try lia. done.
Qed.

Lemma uno_a_uno_cuenta c b : ∀ k,
  let k' := foldl (uno_a_uno c) k b in
  insertados k' + descartados k' = insertados k + descartados k + length b
  ∧ tabla k `prefix_of` tabla k'
  ∧ length (tabla k') + insertados k = length (tabla k) + insertados k'
  ∧ descartados k ≤ descartados k'.
Proof.
  induction b as [|r b IH]; intros k; cbv zeta; cbn [foldl length].
  - repeat split; try lia. done.
  - destruct (IH (uno_a_uno c k r)) as (H1 & H2 & H3 & H4).
    destruct (uno_a_uno_paso c k r) as (G1 & G2 & G3 & G4).
    repeat split; try lia. by etrans.
Qed.

(** X15. A batch never loses a row, whatever the table holds before it
    and whether or not the bulk insert goes through: inserted and
    discarded counts grow together by the size of the batch, the rows
    already in the table stay where they are, and the table grows by
    exactly the number of rows counted as inserted. *)
Theorem insertar_lote_cuenta (c : catalogos) (k : tally)
    (b : list contribuyente) :
  let k' := insertar_lote c k b in
  insertados k' + descartados k' = insertados k + descartados k + length b
  ∧ tabla k `prefix_of` tabla k'
  ∧ length (tabla k') + insertados k = length (tabla k) + insertados k'
  ∧ descartados k ≤ descartados k'.
Proof.
  cbv zeta. unfold insertar_lote.
  destruct (executemany c (tabla k) b) as [t'|] eqn:E.
  - apply executemany_Some in E as ->. proyectar. rewrite length_app.
    repeat split; try lia. by apply prefix_app_r.
  - apply uno_a_uno_cuenta.
Qed.

Lemma executemany_uno_a_uno c b : ∀ k t',
  executemany c (tabla k) b = Some t' →
  foldl (uno_a_uno c) k b
  = Tally t' (insertados k + length b) (descartados k).
Proof.
  induction b as [|r b IH]; intros k t'; cbn [executemany foldl length].
  - intros [= <-]. destruct k. proyectar. f_equal. lia.
  - unfold uno_a_uno at 2.
    destruct (execute c (tabla k) r) as [t1|]; [|done].
    intros H. rewrite (IH (Tally t1 (insertados k + 1) (descartados k)) t' H).
    proyectar. f_equal. lia.
Qed.

(** X16. The bulk insert is an optimisation only: a batch always ends
    in the table and the counts that inserting its rows one by one, each
    in its own transaction, would give. *)
Theorem insertar_lote_uno_a_uno (c : catalogos) (k : tally)
    (b : list contribuyente) :
  insertar_lote c k b = foldl (uno_a_uno c) k b.
Proof.
  unfold insertar_lote.
  destruct (executemany c (tabla k) b) as [t'|] eqn:E; [|done].
  by rewrite (executemany_uno_a_uno c b k t' E).
Qed.

(** The table when [migrar_staging_a_contribuyente] returns. *)
Lemma migrar_final_tabla c rows :
  let t := aceptadas c (limpiar_fila <$> primeras rows) in
  tabla (migrar_final c rows).1
  = if bool_decide (ruc registro_especial ∈ ruc <$> t) then t
    else if row_ok c registro_especial then t ++ [registro_especial] else t.
Proof.
  cbv zeta. destruct (migrar_final_cuenta c rows) as (_ & _ & -> & _).
  rewrite migrar_lotes_cerrada. proyectar.
  unfold insertar_registro_especial, execute, insert_ok.
  case_bool_decide as Hin; [done|]. cbn [negb]. rewrite andb_true_r.
  by destruct (row_ok c registro_especial).
Qed.

Lemma migrar_staging_a_contribuyente_tabla db :
  CONTRIBUYENTE (migrar_staging_a_contribuyente db).1.1
  = tabla (migrar_final (cats db) (filas_filtradas db)).1.
Proof. by rewrite migrar_staging_a_contribuyente_base. Qed.

(** X12. The fixed record is inserted only if absent and only if the
    store takes it: when a migrated staging row already carries ruc
    611077 that row stands and nothing is added; otherwise the record is
    appended when the store accepts it, and when the store refuses it
    the table is left without it and a warning is logged. *)
Theorem migrar_registro_especial (db : base) :
  let c := cats db in
  let t := aceptadas c (limpiar_fila <$> primeras (filas_filtradas db)) in
  let r := migrar_staging_a_contribuyente db in
  (ruc registro_especial ∈ ruc <$> t → CONTRIBUYENTE r.1.1 = t)
  ∧ (ruc registro_especial ∉ ruc <$> t → row_ok c registro_especial = true →
     CONTRIBUYENTE r.1.1 = t ++ [registro_especial])
  ∧ (ruc registro_especial ∉ ruc <$> t → row_ok c registro_especial = false →
     CONTRIBUYENTE r.1.1 = t ∧ last r.1.2 = Some LogRegistroEspecialFallido).
Proof.
  cbv zeta. rewrite migrar_staging_a_contribuyente_tabla, migrar_final_tabla.
  split; [|split].
  - intros Hin. by rewrite bool_decide_eq_true_2.
  - intros Hin Hok. by rewrite bool_decide_eq_false_2, Hok.
  - intros Hin Hok. rewrite bool_decide_eq_false_2, Hok by done.
    split; [done|].
    unfold migrar_staging_a_contribuyente, migrar_final.
    fold (filas_filtradas db).
    pose proof (migrar_lotes_cerrada (cats db) (filas_filtradas db)) as Hc.
    destruct (migrar_lotes (cats db) (filas_filtradas db)) as [k log].
    cbn [fst] in Hc. subst k. proyectar.
    unfold insertar_registro_especial, execute, insert_ok.
    rewrite bool_decide_eq_false_2, Hok by done. cbn [andb fst snd].
    by rewrite last_snoc.
Qed.

Lemma primeras_desde_sublist rows : ∀ previas,
  primeras_desde previas rows `sublist_of` rows.
Proof.
  induction rows as [|r rows IH]; intros previas; cbn [primeras_desde].
  - done.
  - case_bool_decide; [by apply sublist_cons|by apply sublist_skip].
Qed.

Lemma registro_especial_campos :
  (10000 ≤ ruc registro_especial)%Z
  ∧ id_estado registro_especial ∈ codigos_estado
  ∧ id_condicion registro_especial ∈ codigos_condicion
  ∧ id_tipo_empresa registro_especial ∈ codigos_tipo_empresa
  ∧ id_tamano registro_especial ∈ codigos_tamano
  ∧ sexo registro_especial ∈ codigos_sexo
  ∧ PrimFloat.ltb (c_deuda registro_especial) 0 = false.
Proof.
  split; [done|]. repeat split; por_calculo.
Qed.

Lemma limpiar_fila_deuda row :
  PrimFloat.ltb (c_deuda (limpiar_fila row)) 0 = false.
Proof.
  unfold limpiar_fila. cbn [c_deuda].
  generalize (match deuda row with Some d => d | None => 0%float end).
  intros d. destruct (PrimFloat.ltb d 0) eqn:E; [reflexivity|exact E].
Qed.

(** The rows of the table a migration leaves, and where they come
    from. *)
Lemma migrar_tabla_origen db r :
  r ∈ CONTRIBUYENTE (migrar_staging_a_contribuyente db).1.1 →
  row_ok (cats db) r = true
  ∧ (r = registro_especial
     ∨ ∃ row, row ∈ TMP_DataOZ_Staging db ∧ filtro row = true
              ∧ r = limpiar_fila row).
Proof.
  rewrite migrar_staging_a_contribuyente_tabla, migrar_final_tabla.
  assert (Ht : r ∈ aceptadas (cats db)
                     (limpiar_fila <$> primeras (filas_filtradas db)) →
               row_ok (cats db) r = true
               ∧ ∃ row, row ∈ TMP_DataOZ_Staging db ∧ filtro row = true
                        ∧ r = limpiar_fila row).
  { unfold aceptadas. rewrite list_elem_of_filter.
    intros [Hok (row & -> & Hrow)%list_elem_of_fmap]. split; [done|].
    exists row. split; [|split; [|done]].
    - eapply elem_of_sublist in Hrow; [|apply primeras_desde_sublist].
      unfold filas_filtradas in Hrow. by apply list_elem_of_filter in Hrow as [_ ?].
    - eapply elem_of_sublist in Hrow; [|apply primeras_desde_sublist].
      unfold filas_filtradas in Hrow. by apply list_elem_of_filter in Hrow as [? _]. }
  case_bool_decide as Hin.
  - intros H. destruct (Ht H). split; [done|by right].
  - destruct (row_ok (cats db) registro_especial) eqn:Hok.
    + intros [H|H]%elem_of_app.
      * destruct (Ht H). split; [done|by right].
      * apply list_elem_of_singleton in H as ->. split; [done|by left].
    + intros H. destruct (Ht H). split; [done|by right].
Qed.

(** X13. Whatever is in CONTRIBUYENTE after a migration passed the
    constraints of the store, and is either the fixed record or the
    cleaned form of a staging row that passes the filter of the
    migration: nothing else gets in, and nothing of what the table held
    before stays. *)
Theorem migrar_solo_filas_validas (db : base) :
  Forall
    (λ r, row_ok (cats db) r = true
          ∧ (r = registro_especial
             ∨ ∃ row, row ∈ TMP_DataOZ_Staging db ∧ filtro row = true
                      ∧ r = limpiar_fila row))
    (CONTRIBUYENTE (migrar_staging_a_contribuyente db).1.1).
Proof. apply Forall_forall. intros r Hr. by apply migrar_tabla_origen. Qed.

(** X14. Every row of CONTRIBUYENTE after a migration has a ruc of at
    least 10000, an activity, a location and a raw domicile flag that are
    not NULL, its five cleaned columns within the code sets of their
    normalizers, and a debt that is not below zero. *)
Theorem migrar_campos (db : base) :
  Forall
    (λ r, (10000 ≤ ruc r)%Z
          ∧ id_ciiu r ≠ None ∧ id_ubicacion r ≠ None ∧ flag22 r ≠ None
          ∧ id_estado r ∈ codigos_estado
          ∧ id_condicion r ∈ codigos_condicion
          ∧ id_tipo_empresa r ∈ codigos_tipo_empresa
          ∧ id_tamano r ∈ codigos_tamano
          ∧ sexo r ∈ codigos_sexo
          ∧ PrimFloat.ltb (c_deuda r) 0 = false)
    (CONTRIBUYENTE (migrar_staging_a_contribuyente db).1.1).
Proof.
  apply Forall_forall. intros r Hr.
  apply migrar_tabla_origen in Hr as [_ [->|(row & _ & Hf & ->)]].
  - destruct registro_especial_campos as (?&?&?&?&?&?&?).
    repeat split; done.
  - unfold filtro in Hf. rewrite !andb_true_iff in Hf.
    destruct Hf as ((((((Hruc & H1) & H2) & H3) & H4) & H5) & H6).
    apply Z.leb_le in Hruc.
    split; [done|]. unfold limpiar_fila at 1 2 3.
    cbn [id_ciiu id_ubicacion flag22].
    split; [by destruct (ddp_ciiu row)|].
    split; [by destruct (ddp_ubigeo row)|].
    split; [by destruct (ddp_flag22 row)|].
    split; [apply limpiar_estado_codigo|].
    split; [apply limpiar_condicion_codigo|].
    split; [apply limpiar_tipo_empresa_codigo|].
    split; [apply limpiar_tamano_codigo|].
    split; [apply limpiar_sexo_codigo|].
    apply limpiar_fila_deuda.
Qed.

(** ** The orchestrator, once more *)

(** X17. No orphan foreign keys into the catalogs that grow: after a
    run of [main] that performed the load, every row of CONTRIBUYENTE
    other than the fixed record has its activity code, its location and
    its company type in the catalogs, whatever the store itself
    checks. *)
Theorem main_sin_huerfanos (env : entorno) (reader : list fila_csv)
    (db db1 : base) :
  salida (main env reader db) = Finalizado db1 →
  EtapaMigracion ∈ etapas (main env reader db) →
  Forall
    (λ r, r = registro_especial
          ∨ ((∃ x, id_ciiu r = Some x ∧ x ∈ ACTIVIDAD_ECONOMICA (cats db1))
             ∧ (∃ x, id_ubicacion r = Some x
                     ∧ x ∈ UBICACION_GEOGRAFICA (cats db1))
             ∧ id_tipo_empresa r ∈ TIPO_EMPRESA (cats db1)))
    (CONTRIBUYENTE db1).
Proof.
  intros Hrun Het.
  apply main_finalizado in Hrun as [(_ & _ & He)|(st & Hst & -> & _)].
  { rewrite He in Het. apply elem_of_cons in Het as [?|Het]; [done|].
    apply elem_of_cons in Het as [?|Het]; [done|]. by apply elem_of_nil in Het. }
  unfold tras_carga.
  set (db0 := Base (c_tabla st) (cats db) (CONTRIBUYENTE db)).
  rewrite migrar_staging_a_contribuyente_base. cbn [cats].
  apply Forall_forall. intros r Hr.
  rewrite <- migrar_staging_a_contribuyente_base in Hr.
  replace (CONTRIBUYENTE _) with
    (CONTRIBUYENTE (migrar_staging_a_contribuyente (poblar_catalogos db0).1).1.1)
    in Hr by by rewrite migrar_staging_a_contribuyente_base.
  apply migrar_tabla_origen in Hr as [_ [->|(row & Hrow & Hf & ->)]];
    [by left|right].
  rewrite poblar_catalogos_base in Hrow. cbn [TMP_DataOZ_Staging] in Hrow.
  destruct (staging_en_catalogos db0 row Hrow) as (Hc & Hu & Ht).
  unfold filtro in Hf. rewrite !andb_true_iff in Hf.
  destruct Hf as ((((((_ & H1) & H2) & _) & H4) & _) & _).
  unfold limpiar_fila. cbn [id_ciiu id_ubicacion id_tipo_empresa].
  destruct (ddp_ciiu row) as [x1|]; [|done].
  destruct (ddp_tpoemp row) as [x2|]; [|done].
  destruct (ddp_ubigeo row) as [x4|]; [|done].
  split; [exists x1; split; [done|by apply Hc]|].
  split; [exists x4; split; [done|by apply Hu]|].
  cbn [str_or_empty]. by apply Ht.
Qed.

(** ** [execute_sql_file] *)

(** The blocks that reach the server: trimmed and not empty. *)
Lemma paso_sql_inv {S} (ejecutar : S → pystr → S * option pystr)
    (l : list (nat * pystr)) : ∀ st,
  let st' := foldl (paso_sql ejecutar) st l in
  let bloques :=
    filter (λ ib, ib.2 ≠ []) ((λ ib, (ib.1, strip ib.2)) <$> l) in
  let resp := respuestas ejecutar (servidor st) bloques in
  servidor st' = foldl (λ s ib, (ejecutar s ib.2).1) (servidor st) bloques
  ∧ sql_log st' = sql_log st ++ omap aviso resp
  ∧ exitosos st'
    = exitosos st + length (filter (λ ir, ir.2 = None) resp)
  ∧ errores st' = errores st + length (omap aviso resp).
Proof.
  induction l as [|[i b] l IH]; intros st; cbv zeta.
  - cbn [foldl fmap list_fmap]. rewrite filter_nil.
    cbn [foldl respuestas omap list_omap length]. rewrite filter_nil.
    cbn [length]. rewrite app_nil_r. repeat split; lia.
  - cbn [foldl]. rewrite fmap_cons, filter_cons. cbn [fst snd].
    destruct (IH (paso_sql ejecutar st (i, b))) as (Hs & Hl & Hx & He).
    rewrite Hs, Hl, Hx, He. clear Hs Hl Hx He IH.
    unfold paso_sql. cbn [fst snd].
    destruct (strip b) as [|c r] eqn:Eb; cbn [truthy negb].
    + case_decide; [done|]. done.
    + case_decide; [|done]. cbn [foldl respuestas fst snd].
      destruct (ejecutar (servidor st) (c :: r)) as [srv [m|]] eqn:Ee;
        cbn [fst snd].
      * rewrite filter_cons. cbn [snd]. case_decide; [done|].
        cbn [omap list_omap].
        change (aviso (i, Some m))
          with (if ya_existe m then None
                else Some (SqlBloqueError (i + 1) (take 100 m))).
        destruct (ya_existe m) eqn:Em; proyectar_sql.
        -- done.
        -- rewrite <- app_assoc. cbn [app length].
           split; [done|]. split; [done|]. split; [done|]. lia.
      * rewrite filter_cons. cbn [snd]. case_decide; [|done].
        cbn [omap list_omap].
        change (aviso (i, None)) with (@None sql_evento).
        proyectar_sql. cbn [length].
        split; [done|]. split; [done|]. split; [lia|done].
Qed.

Lemma imap_strip (l : list pystr) : ∀ g : nat → nat,
  (λ ib : nat * pystr, (ib.1, strip ib.2)) <$> imap (λ i b, (g i, b)) l
  = imap (λ i b, (g i, strip b)) l.
Proof.
  induction l as [|x l IH]; intros g; [done|].
  rewrite !imap_cons, fmap_cons. cbn [fst snd]. f_equal.
  apply (IH (g ∘ S)).
Qed.

Lemma aviso_ninguno (resp : list (nat * option pystr)) :
  length (omap aviso resp) = 0
  ↔ Forall (λ ir, ∀ m, ir.2 = Some m → ya_existe m = true) resp.
Proof.
  induction resp as [|[i [m|]] resp IH]; cbn [omap list_omap].
  - split; [constructor|done].
  - change (aviso (i, Some m))
      with (if ya_existe m then None
            else Some (SqlBloqueError (i + 1) (take 100 m))).
    destruct (ya_existe m) eqn:Em.
    + rewrite IH. split.
      * intros H. constructor; [|done]. cbn [snd]. by intros ? [= <-].
      * by intros H; inversion H.
    + cbn [length]. split; [done|]. intros H. inversion H as [|? ? Hm _].
      cbn [snd] in Hm. specialize (Hm m eq_refl). congruence.
  - change (aviso (i, None)) with (@None sql_evento). rewrite IH. split.
    + intros H. by constructor.
    + by intros H; inversion H.
Qed.

Lemma respuestas_origen {S} (ejecutar : S → pystr → S * option pystr)
    (bloques : list (nat * pystr)) : ∀ srv,
  Forall (λ ir, ∃ s b, ir.2 = (ejecutar s b).2)
    (respuestas ejecutar srv bloques).
Proof.
  induction bloques as [|ib bloques IH]; intros srv; cbn [respuestas];
    constructor; [by eexists _, _|apply IH].
Qed.

(** X19. The initialisation script is run to its end whatever fails.
    Every block that is not blank once trimmed reaches the server
    exactly once, in the order of the file.  The log holds one warning
    for each block that the server failed with an error other than
    "already exists", with the position of the block and the first 100
    characters of the message, in order, and then the closing line with
    the number of blocks that went through and the number of those
    failures.  The value returned is true exactly when there is no such
    failure; so a server whose only complaints are of the "already
    exists" kind makes the call succeed. *)
Theorem execute_sql_file_bloques {S} (ejecutar : S → pystr → S * option pystr)
    (batches : list pystr) (srv : S) :
  let r := execute_sql_file ejecutar (Some batches) true srv in
  let bloques := bloques_de batches in
  let resp := respuestas ejecutar srv bloques in
  r.1.1 = foldl (λ s ib, (ejecutar s ib.2).1) srv bloques
  ∧ r.2 = omap aviso resp
          ++ [SqlScriptEjecutado (length (filter (λ ir, ir.2 = None) resp))
                (length (omap aviso resp))]
  ∧ (r.1.2 = true
     ↔ Forall (λ ir, ∀ m, ir.2 = Some m → ya_existe m = true) resp)
  ∧ ((∀ s b m, (ejecutar s b).2 = Some m → ya_existe m = true) →
     r.1.2 = true).
Proof.
  cbv zeta. unfold execute_sql_file, bloques_de.
  destruct (paso_sql_inv ejecutar (imap (λ i b, (i, b)) batches)
              (EstadoSql srv 0 0 []))
    as (Hs & Hl & Hx & He).
  pose proof (imap_strip batches (λ i, i)) as Hi. cbn beta in Hi.
  rewrite Hi in Hs, Hl, Hx, He. clear Hi.
  revert Hs Hl Hx He. proyectar_sql. cbn [app]. intros Hs Hl Hx He.
  rewrite Hs, Hl, Hx, He. cbn [Nat.add].
  assert (Hiff : (length (omap aviso (respuestas ejecutar srv
                    (filter (λ ib, ib.2 ≠ [])
                       (imap (λ i b, (i, strip b)) batches)))) =? 0) = true
                 ↔ Forall (λ ir, ∀ m, ir.2 = Some m → ya_existe m = true)
                     (respuestas ejecutar srv
                        (filter (λ ib, ib.2 ≠ [])
                           (imap (λ i b, (i, strip b)) batches)))).
  { by rewrite Nat.eqb_eq, aviso_ninguno. }
  split; [done|]. split; [done|]. split; [done|].
  intros Hya. apply Hiff.
  eapply Forall_impl; [apply respuestas_origen|].
  intros ir (s & b & Hir) m Hm. apply (Hya s b). by rewrite <- Hir.
Qed.

(** ** [guardar_resultado_spark] *)

Lemma insertar_resultados_ok ok nombre data : ∀ t t',
  insertar_resultados ok nombre data t = Ok t' →
  t' = t ++ filas_de nombre data.
Proof.
  induction data as [|[[[c m] v] x] data IH]; intros t t';
    cbn [insertar_resultados].
  - intros [= <-]. by rewrite app_nil_r.
  - destruct (ok _); [|done]. intros H. apply IH in H as ->.
    by rewrite <- app_assoc.
Qed.


Lemma filas_de_nombre nombre data :
  filter (λ r, nombre_analisis r = nombre) (filas_de nombre data)
  = filas_de nombre data
  ∧ filter (λ r, nombre_analisis r ≠ nombre) (filas_de nombre data) = [].
Proof.
  induction data as [|d data [IH1 IH2]]; [done|].
  unfold filas_de in *. rewrite fmap_cons, !filter_cons.
  cbn [nombre_analisis]. rewrite IH1, IH2.
  split; by case_decide.
Qed.

Lemma filter_complementario (nombre : pystr) (t : list fila_resultado) :
  filter (λ r, nombre_analisis r = nombre)
    (filter (λ r, nombre_analisis r ≠ nombre) t) = []
  ∧ filter (λ r, nombre_analisis r ≠ nombre)
      (filter (λ r, nombre_analisis r ≠ nombre) t)
    = filter (λ r, nombre_analisis r ≠ nombre) t.
Proof.
  induction t as [|r t [IH1 IH2]]; [done|].
  rewrite filter_cons. case_decide as Hr.
  - rewrite !filter_cons, IH1, IH2. split; by repeat case_decide.
  - done.
Qed.

(** X20. Saving an analysis replaces it: after a call that went through
    the rows stored under that name are exactly the rows of [data], in
    order, and the rows of every other analysis are those that were
    there, in their order. *)
Theorem guardar_resultado_spark_reemplaza (ok : fila_resultado → bool)
    (nombre : pystr) (data : list (pystr * pystr * float * pystr))
    (t t' : list fila_resultado) :
  guardar_resultado_spark ok nombre data t = Ok t' →
  filter (λ r, nombre_analisis r = nombre) t' = filas_de nombre data
  ∧ filter (λ r, nombre_analisis r ≠ nombre) t'
    = filter (λ r, nombre_analisis r ≠ nombre) t.
Proof.
  unfold guardar_resultado_spark. intros H.
  apply insertar_resultados_ok in H as ->.
  destruct (filas_de_nombre nombre data) as [H1 H2].
  destruct (filter_complementario nombre t) as [H3 H4].
  by rewrite !filter_app, H1, H2, H3, H4, app_nil_r.
Qed.


End Pipeline.

(** * The properties on the sample instances *)

(** C6, the code at the failing input.  An extract whose only line has
    a blank ruc and well-formed other fields loads nothing into staging,
    which is right, and reports the line nowhere: the closing log line
    says 0 rows loaded and 0 ignored. *)
Theorem cargar_fila_sin_ruc_no_contada :
  cargar_csv_a_staging staging_ok_ejemplo py_float_ejemplo
    [linea "" "5211" "A" "C" "CHIMBOTE" "ACTIVO" "HABIDO" "HOMBRE"
       "30" "100" "1"]
    base_ejemplo
  = Ok (Base [] cats_ejemplo [], [LogCsvCargado 0 0], 0).
Proof. vm_compute. reflexivity. Qed.

(** The sibling path: a ruc that is not a number is counted. *)
Example cargar_fila_ruc_invalido_contada :
  cargar_csv_a_staging staging_ok_ejemplo py_float_ejemplo
    [linea "2010x" "5211" "A" "C" "CHIMBOTE" "ACTIVO" "HABIDO" "HOMBRE"
       "30" "100" "1"]
    base_ejemplo
  = Ok (Base [] cats_ejemplo [], [LogCsvCargado 0 1], 0).
Proof. vm_compute. reflexivity. Qed.

(** So is a ruc that begins with the separator U+001F, which [strip]
    removes and [int()] does not read. *)
Example cargar_fila_ruc_con_separador :
  cargar_csv_a_staging staging_ok_ejemplo py_float_ejemplo
    [<[lit "ddp_numruc" := Some (31%N :: lit "20100100")]>
       (linea "" "5211" "A" "C" "CHIMBOTE" "ACTIVO" "HABIDO" "HOMBRE"
          "30" "100" "1")]
    base_ejemplo
  = Ok (Base [] cats_ejemplo [], [LogCsvCargado 0 1], 0).
Proof. vm_compute. reflexivity. Qed.

(** A line that breaks off after a blank ruc ends the load: the fields
    the reader filled with [None] have no [strip]. *)
Example cargar_fila_corta_fatal :
  cargar_csv_a_staging staging_ok_ejemplo py_float_ejemplo
    [linea_corta "" "5211"] base_ejemplo
  = Raise AttributeError.
Proof. vm_compute. reflexivity. Qed.

(** C7 on three inputs, one for each rule. *)
Lemma limpiar_tipo_empresa_regla_witness :
  limpiar_tipo_empresa (Some (lit " ce ")) = lit "CE"
  ∧ limpiar_tipo_empresa (Some (lit "b9")) = lit "B"
  ∧ limpiar_tipo_empresa (Some (lit "zz")) = lit "-".
Proof.
  split; [|split].
  - apply (proj1 (limpiar_tipo_empresa_regla (lit " ce "))). por_calculo.
  - apply (proj1 (proj2 (limpiar_tipo_empresa_regla (lit "b9"))) 66%N [57%N]).
    + reflexivity.
    + apply no_en_tupla. reflexivity.
    + por_calculo.
  - apply (proj1 (proj2 (proj2 (limpiar_tipo_empresa_regla (lit "zz"))))).
    + apply no_en_tupla. reflexivity.
    + intros c resto E. injection E as <- <-. apply no_en_tupla. reflexivity.
Defined.

(** C8 on three inputs, one for each rule. *)
Lemma limpiar_estado_regla_witness :
  limpiar_estado (Some (lit " 2activo ")) = lit "ACTIVO"
  ∧ limpiar_estado (Some (lit "inactivo")) = lit "INACTIVO"
  ∧ limpiar_estado (Some (lit "BAJA")) = lit "ND".
Proof.
  split; [|split].
  - apply (proj1 (limpiar_estado_regla (lit " 2activo "))). reflexivity.
  - apply (proj1 (proj2 (limpiar_estado_regla (lit "inactivo")))). por_calculo.
  - apply (proj1 (proj2 (proj2 (limpiar_estado_regla (lit "BAJA"))))).
    + discriminate.
    + apply no_en_tupla. reflexivity.
Defined.

(** C2 on a batch of three rows with a refused one in the middle, and on
    a run of 501 rows whose first full batch of 500 holds the refused
    row. *)
Lemma lote_fallback_witness :
  insertar_lote row_ok_ejemplo cats_ejemplo (Tally [] 0 0)
    (limpiar_fila <$> [fila_ejemplo 20000001 "5211" 30; fila_mala;
                       fila_ejemplo 20000002 "5211" 31])
  = Tally
      (limpiar_fila <$> [fila_ejemplo 20000001 "5211" 30;
                         fila_ejemplo 20000002 "5211" 31])
      2 1
  ∧ (migrar_lotes row_ok_ejemplo cats_ejemplo
       (filas_validas 0 10 ++ fila_mala :: filas_validas 10 490)).1
    = Tally (limpiar_fila <$> (filas_validas 0 10 ++ filas_validas 10 490))
        (length (filas_validas 0 10 ++ filas_validas 10 490)) 1.
Proof.
  destruct (lote_fallback row_ok_ejemplo cats_ejemplo (Tally [] 0 0)
              (limpiar_fila <$> [fila_ejemplo 20000001 "5211" 30; fila_mala;
                                 fila_ejemplo 20000002 "5211" 31])
              (filas_validas 0 10) (filas_validas 10 490) fila_mala)
    as [H1 H2].
  split.
  - rewrite H1; [reflexivity|por_calculo|reflexivity].
  - apply H2; [por_calculo|por_calculo|reflexivity].
Defined.

(** C3 on two rows with the same id and different activity and age. *)
Lemma dedup_primera_gana_witness :
  (migrar_lotes row_ok_ejemplo cats_ejemplo
     [fila_ejemplo 20000001 "5211" 30; fila_ejemplo 20000001 "75113" 44]).1
  = Tally [limpiar_fila (fila_ejemplo 20000001 "5211" 30)] 1 1.
Proof.
  rewrite (proj2 (dedup_primera_gana row_ok_ejemplo cats_ejemplo []
                    (fila_ejemplo 20000001 "5211" 30)
                    (fila_ejemplo 20000001 "75113" 44)));
    reflexivity.
Defined.

(** C5, the counterexample.  No function of the value returned gives
    the discarded count: two runs return 1, one having discarded no row
    and the other one row. *)
Lemma migrar_resultado_sin_descartados :
  ¬ ∃ descartados_de : nat → nat, ∀ db : base,
      descartados_de (migrar_staging_a_contribuyente row_ok_ejemplo db).2
      = descartados
          (migrar_final row_ok_ejemplo (cats db)
             (filter (λ r, filtro r = true) (TMP_DataOZ_Staging db))).1.
Proof.
  intros [f Hf].
  pose proof (Hf (Base [fila_ejemplo 20000001 "5211" 30] cats_ejemplo []))
    as H1.
  pose proof (Hf (Base [fila_ejemplo 20000001 "5211" 30;
                        fila_ejemplo 20000001 "75113" 44] cats_ejemplo []))
    as H2.
  vm_compute in H1, H2. congruence.
Qed.

(** C9 on a store that already holds 100 rows, in a run whose count
    query answers. *)
Lemma main_salta_carga_witness :
  etapas (main row_ok_ejemplo staging_ok_ejemplo py_float_ejemplo
            (Entorno true true true None sin_fallas) extracto_ejemplo
            (Base [] cats_ejemplo (limpiar_fila <$> filas_validas 0 100)))
  = [EtapaSpark; EtapaResumen]
  ∧ salida (main row_ok_ejemplo staging_ok_ejemplo py_float_ejemplo
              (Entorno true true true None sin_fallas) extracto_ejemplo
              (Base [] cats_ejemplo (limpiar_fila <$> filas_validas 0 100)))
    = Finalizado (Base [] cats_ejemplo (limpiar_fila <$> filas_validas 0 100)).
Proof.
  destruct (main_salta_carga row_ok_ejemplo staging_ok_ejemplo
              py_float_ejemplo (Entorno true true true None sin_fallas)
              extracto_ejemplo
              (Base [] cats_ejemplo (limpiar_fila <$> filas_validas 0 100)))
    as (H1 & H2 & _); [reflexivity|reflexivity|].
  split.
  - apply H1. split; [reflexivity|]. vm_compute. lia.
  - apply H2; [reflexivity| |reflexivity]. vm_compute. lia.
Defined.

(** C9, the counterexample.  The store holds 100 rows and the count
    query of the initial check fails: [check_table_has_data] answers
    that there is no data, and the run calls the staging load, the
    catalog population and the migration, which leave the 4 records of
    the extract. *)
Lemma main_recarga_si_consulta_falla :
  length (limpiar_fila <$> filas_validas 0 100) = 100
  ∧ etapas (main row_ok_ejemplo staging_ok_ejemplo py_float_ejemplo
              (Entorno true true false None sin_fallas) extracto_ejemplo
              (Base [] cats_ejemplo (limpiar_fila <$> filas_validas 0 100)))
    = [EtapaStaging; EtapaCatalogos; EtapaMigracion; EtapaSpark;
       EtapaResumen].
Proof. split; vm_compute; reflexivity. Qed.



(** X4 on the sample extract: four of its six lines are staged and one
    is counted as ignored. *)
Lemma cargar_csv_a_staging_contenido_witness :
  match cargar_csv_a_staging staging_ok_ejemplo py_float_ejemplo
          extracto_ejemplo base_ejemplo with
  | Ok (db', log, n) =>
      TMP_DataOZ_Staging db' = filas_aceptadas py_float_ejemplo extracto_ejemplo
      ∧ cats db' = cats_ejemplo
      ∧ CONTRIBUYENTE db' = []
      ∧ n = 4
      ∧ last log = Some (LogCsvCargado 4 1)
  | Raise _ => False
  end.
Proof.
  destruct (cargar_csv_a_staging staging_ok_ejemplo py_float_ejemplo
              extracto_ejemplo base_ejemplo) as [[[db' log] n]|e] eqn:E.
  - destruct (cargar_csv_a_staging_contenido staging_ok_ejemplo
                py_float_ejemplo extracto_ejemplo base_ejemplo db' log n E)
      as (H1 & H2 & H3 & H4 & H5).
    split; [exact H1|]. split; [exact H2|]. split; [exact H3|].
    split; [rewrite H4; reflexivity|].
    rewrite H5, H4. reflexivity.
  - vm_compute in E. discriminate.
Defined.


(** X6 on the sample extract. *)
Lemma cargar_csv_a_staging_campos_witness :
  match cargar_csv_a_staging staging_ok_ejemplo py_float_ejemplo
          extracto_ejemplo base_ejemplo with
  | Ok (db', _, _) =>
      Forall (λ f, texto_limpio (ddp_ciiu f) ∧ texto_limpio (dds_sexo f)
                   ∧ deuda f ≠ None)
        (TMP_DataOZ_Staging db')
  | Raise _ => False
  end.
Proof.
  destruct (cargar_csv_a_staging staging_ok_ejemplo py_float_ejemplo
              extracto_ejemplo base_ejemplo) as [[[db' log] n]|e] eqn:E.
  - eapply Forall_impl.
    + exact (cargar_csv_a_staging_campos staging_ok_ejemplo py_float_ejemplo
               extracto_ejemplo base_ejemplo db' log n E).
    + intros f (_ & H1 & _ & _ & _ & _ & _ & H7 & H8 & _).
      split; [exact H1|]. split; [exact H7|exact H8].
  - vm_compute in E. discriminate.
Defined.

(** X7 on an extract of two lines without the ruc column. *)
Lemma cargar_csv_a_staging_sin_columna_witness :
  cargar_csv_a_staging staging_ok_ejemplo py_float_ejemplo
    [linea_sin_columna; linea_sin_columna] base_ejemplo
  = Ok (Base [] cats_ejemplo [], [LogCsvCargado 0 2], 0).
Proof.
  apply (cargar_csv_a_staging_sin_columna staging_ok_ejemplo py_float_ejemplo
           [linea_sin_columna; linea_sin_columna] base_ejemplo).
  por_calculo.
Defined.

(** X22 on the last line of the sample extract, whose age and
    condition are blank and whose debt is 0. *)
Lemma leer_fila_conversiones_witness :
  match leer_fila py_float_ejemplo
          (linea "20100300" "7020" "A7" "x" "NUEVO CHIMBOTE" "12" "HABIDO"
             "mujer" "" "0" "") with
  | Ok (Some f) =>
      dds_edad f = None ∧ deuda f = py_float_ejemplo (lit "0")
      ∧ condicion f = 0%Z
  | _ => False
  end.
Proof.
  destruct (leer_fila py_float_ejemplo
              (linea "20100300" "7020" "A7" "x" "NUEVO CHIMBOTE" "12" "HABIDO"
                 "mujer" "" "0" "")) as [[f|]|e] eqn:E.
  - destruct (leer_fila_conversiones py_float_ejemplo _ f E)
      as ((r1 & Hr1 & H1) & (r2 & Hr2 & H2) & (r3 & Hr3 & H3)).
    vm_compute in Hr1, Hr2, Hr3.
    injection Hr1 as <-. injection Hr2 as <-. injection Hr3 as <-.
    split; [|split].
    + destruct H1 as [[_ H]|[H _]]; [exact H|]. by vm_compute in H.
    + destruct H2 as [[H _]|[_ H]]; [|by symmetry]. by vm_compute in H.
    + destruct H3 as [[_ H]|[H _]]; [exact H|]. by vm_compute in H.
  - vm_compute in E. discriminate.
  - vm_compute in E. discriminate.
Defined.

(** X9 on a store whose catalog of company types is seeded: the pass
    leaves it as it is. *)
Lemma poblar_catalogos_crece_witness :
  TIPO_EMPRESA
    (cats (poblar_catalogos
             (Base [fila_ejemplo 20000001 "7020" 30] cats_ejemplo [])).1)
  = TIPO_EMPRESA cats_ejemplo.
Proof.
  apply (proj2 (proj2 (proj2 (proj2 (proj2 (proj2
           (poblar_catalogos_crece
              (Base [fila_ejemplo 20000001 "7020" 30] cats_ejemplo [])))))))).
  por_calculo.
Defined.

(** X12 on three stores: one whose staging holds the id 611077, one
    that accepts the special record and one whose catalogs lack its
    activity code. *)
Lemma migrar_registro_especial_witness :
  CONTRIBUYENTE
    (migrar_staging_a_contribuyente row_ok_ejemplo
       (Base [fila_ejemplo 611077 "5211" 30] cats_ejemplo [])).1.1
  = [limpiar_fila (fila_ejemplo 611077 "5211" 30)]
  ∧ CONTRIBUYENTE
      (migrar_staging_a_contribuyente row_ok_ejemplo
         (Base [fila_ejemplo 20000001 "5211" 30] cats_ejemplo [])).1.1
    = [limpiar_fila (fila_ejemplo 20000001 "5211" 30); registro_especial]
  ∧ last
      (migrar_staging_a_contribuyente row_ok_ejemplo
         (Base [fila_ejemplo 20000001 "5211" 30]
            (Catalogos {[lit "5211"]} {[lit "CHIMBOTE"]}
               (TIPO_EMPRESA cats_ejemplo)) [])).1.2
    = Some LogRegistroEspecialFallido.
Proof.
  split; [|split].
  - rewrite (proj1 (migrar_registro_especial row_ok_ejemplo
                      (Base [fila_ejemplo 611077 "5211" 30] cats_ejemplo [])));
      [reflexivity|por_calculo].
  - rewrite (proj1 (proj2 (migrar_registro_especial row_ok_ejemplo
                      (Base [fila_ejemplo 20000001 "5211" 30] cats_ejemplo []))));
      [reflexivity|por_calculo|reflexivity].
  - apply (proj2 (proj2 (migrar_registro_especial row_ok_ejemplo
                      (Base [fila_ejemplo 20000001 "5211" 30]
                         (Catalogos {[lit "5211"]} {[lit "CHIMBOTE"]}
                            (TIPO_EMPRESA cats_ejemplo)) []))));
      [por_calculo|reflexivity].
Defined.

(** X17 on the run of the sample extract from the empty store. *)
Lemma main_sin_huerfanos_witness :
  match salida (main row_ok_ejemplo staging_ok_ejemplo py_float_ejemplo
                  (Entorno true true true None sin_fallas) extracto_ejemplo base_ejemplo) with
  | Finalizado db1 =>
      Forall (λ r, r = registro_especial
                   ∨ (∃ x, id_ciiu r = Some x
                           ∧ x ∈ ACTIVIDAD_ECONOMICA (cats db1))
                     ∧ (∃ x, id_ubicacion r = Some x
                             ∧ x ∈ UBICACION_GEOGRAFICA (cats db1))
                     ∧ id_tipo_empresa r ∈ TIPO_EMPRESA (cats db1))
        (CONTRIBUYENTE db1)
  | _ => False
  end.
Proof.
  destruct (salida (main row_ok_ejemplo staging_ok_ejemplo py_float_ejemplo
                      (Entorno true true true None sin_fallas) extracto_ejemplo base_ejemplo))
    as [db1| |] eqn:E.
  - apply (main_sin_huerfanos row_ok_ejemplo staging_ok_ejemplo
             py_float_ejemplo (Entorno true true true None sin_fallas) extracto_ejemplo
             base_ejemplo db1 E).
    replace (etapas _) with [EtapaStaging; EtapaCatalogos; EtapaMigracion;
                             EtapaSpark; EtapaResumen]
      by (vm_compute; reflexivity).
    rewrite !elem_of_cons. right. right. left. reflexivity.
  - vm_compute in E. discriminate.
  - vm_compute in E. discriminate.
Defined.

(** X19 on the sample script: the server refuses the repeated block
    with a message the loop lets pass, so the call returns true. *)
Lemma execute_sql_file_bloques_witness :
  (execute_sql_file servidor_ejemplo (Some script_ejemplo) true []).1.2 = true.
Proof.
  apply (proj2 (proj2 (proj2 (execute_sql_file_bloques servidor_ejemplo
                                script_ejemplo [])))).
  intros s b m. unfold servidor_ejemplo.
  destruct (bool_decide (b ∈ s)); cbn [snd]; [|discriminate].
  intros [= <-]. reflexivity.
Defined.

(** X20 on the sample table: the rows of the other analysis stay, the
    rows of the saved one are those of the data. *)
Lemma guardar_resultado_spark_reemplaza_witness :
  match guardar_resultado_spark resultado_ok_ejemplo (lit "Por Estado")
          datos_ejemplo resultados_ejemplo with
  | Ok t' =>
      filter (λ r, nombre_analisis r = lit "Por Estado") t'
      = filas_de (lit "Por Estado") datos_ejemplo
      ∧ filter (λ r, nombre_analisis r ≠ lit "Por Estado") t'
        = filter (λ r, nombre_analisis r ≠ lit "Por Estado") resultados_ejemplo
  | Raise _ => False
  end.
Proof.
  destruct (guardar_resultado_spark resultado_ok_ejemplo (lit "Por Estado")
              datos_ejemplo resultados_ejemplo) as [t'|e] eqn:E.
  - exact (guardar_resultado_spark_reemplaza resultado_ok_ejemplo
             (lit "Por Estado") datos_ejemplo resultados_ejemplo t' E).
  - vm_compute in E. discriminate.
Defined.

